(** * Gemini MCP server: session registry, request router, shutdown,
      tool boundary and log redaction

    A shallow embedding of
    - [src/http-server.ts]  (HTTP entry point: registry, [/mcp] route, shutdown),
    - [src/index.ts]        (stdio entry point: shutdown),
    - [src/tools/geminiTool.ts]  (tool schema and tool callback),
    - [dist/api/geminiClient.js], [dist/utils/errors.js]
                            (outbound call, error classes and formatting),
    - [dist/utils/logger.js]     (level gate, console output, metadata redaction),
    - [dist/config.js]           (environment validation),
    followed by the properties of the specification that were checked
    against them, and by further properties of the same code. *)

From Stdlib Require Import Ascii String QArith DecimalString.
From Stdlib Require DecimalPos DecimalN.
From stdpp Require Import gmap strings list fin_maps.

Local Open Scope string_scope.
Local Open Scope list_scope.

Set Warnings "-register-all".

(** ** JavaScript data *)

Module Js.

(** JavaScript values as they occur in request bodies, tool arguments and
    log metadata. Numbers are rationals: a JSON number is a finite double,
    every finite double is a rational, and the code below only compares
    numbers with 0, 1 and 8192 and asks whether they are integers. *)
Inductive JsValue :=
  | VUndefined
  | VNull
  | VBool (b : bool)
  | VNum (q : Q)
  | VStr (s : string)
  | VArr (items : list JsValue)
  | VObj (fields : list (string * JsValue)).

(** Plain objects: own properties in insertion order. *)
Abbreviation JsObject := (list (string * JsValue)).

(** [obj[key]]: the first own property of that name, [undefined] if none. *)
Fixpoint get (obj : JsObject) (key : string) : JsValue :=
  match obj with
  | [] => VUndefined
  | (k, v) :: rest => if String.eqb k key then v else get rest key
  end.

(** [obj] has an own property [key]. *)
Fixpoint has (obj : JsObject) (key : string) : bool :=
  match obj with
  | [] => false
  | (k, _) :: rest => String.eqb k key || has rest key
  end.

(** [obj[key] = v]: overwrite in place, or append a new property. *)
Fixpoint assign (obj : JsObject) (key : string) (v : JsValue) : JsObject :=
  match obj with
  | [] => [(key, v)]
  | (k, x) :: rest =>
      if String.eqb k key then (k, v) :: rest else (k, x) :: assign rest key v
  end.

(** [Object.keys(obj)] *)
Definition keys (obj : JsObject) : list string := map fst obj.

(** An [Error] object as the handlers read it: [(error as Error).message]. *)
Record JsError := {
  message : string;
  stack : option string
}.

(** What a promise rejects with, or a statement throws, as a
    [catch (error)] clause that reads [(error as Error).message] meets it:
    an object, or [null] or [undefined], on which the read itself throws a
    [TypeError]. *)
Inductive Rejection :=
  | Raised (error : JsError)
  | RaisedNullish (rendering : string).   (* ["null"] or ["undefined"] *)

(** The message of the [TypeError] a property read on [null] or
    [undefined] raises. *)
Definition cannot_read (rendering property : string) : string :=
  String.append "Cannot read properties of "
    (String.append rendering
       (String.append " (reading '" (String.append property "')"))).

(** A [string | undefined] as a value. *)
Definition of_string (s : option string) : JsValue :=
  match s with
  | Some s => VStr s
  | None => VUndefined
  end.

(** The events of [process] the entry points listen to. *)
Inductive ProcessEvent :=
  | SIGINT
  | SIGTERM
  | uncaughtException (error : JsError)
  | unhandledRejection (reason : JsValue).

(** Truthiness of a [string | undefined] value: [undefined] and the empty
    string are falsy. *)
Definition truthy (v : option string) : bool :=
  match v with
  | Some s => negb (String.eqb s "")
  | None => false
  end.

(** Names every object literal inherits from [Object.prototype]; a
    property read [obj[name]] finds them when [obj] has no own property
    of that name. *)
Definition object_prototype_names : list string :=
  [ "constructor"; "__proto__"; "hasOwnProperty"; "isPrototypeOf";
    "propertyIsEnumerable"; "toLocaleString"; "toString"; "valueOf";
    "__defineGetter__"; "__defineSetter__"; "__lookupGetter__";
    "__lookupSetter__" ].

Definition inherited (name : string) : bool :=
  existsb (String.eqb name) object_prototype_names.

(** [String.prototype.startsWith] *)
Fixpoint startsWith (s sub : string) : bool :=
  match sub with
  | EmptyString => true
  | String a sub' =>
      match s with
      | EmptyString => false
      | String b s' => Ascii.eqb a b && startsWith s' sub'
      end
  end.

(** [String.prototype.includes] *)
Fixpoint includes (s sub : string) : bool :=
  startsWith s sub
  || match s with
     | EmptyString => false
     | String _ rest => includes rest sub
     end.

(** The character [c] occurs in [s]. *)
Fixpoint mentions (c : ascii) (s : string) : bool :=
  match s with
  | EmptyString => false
  | String c' rest => Ascii.eqb c c' || mentions c rest
  end.

(** The byte [c] has the value [n]. *)
Definition byte (n : N) (c : ascii) : bool := (Ascii.N_of_ascii c =? n)%N.

(** The lower case of an ASCII letter; other bytes are kept. *)
Definition lower_ascii (c : ascii) : ascii :=
  let n := Ascii.N_of_ascii c in
  if (65 <=? n)%N && (n <=? 90)%N then Ascii.ascii_of_N (n + 32) else c.

(** [String.prototype.toLowerCase]. A string is held as its UTF-8 bytes.
    ASCII letters are lowered, and so are the only two other characters
    whose lower case contains an ASCII letter: the Kelvin sign U+212A
    (bytes E2 84 AA), which lowers to [k], and the dotted capital I
    U+0130 (bytes C4 B0), which lowers to [i] followed by U+0307 (bytes
    CC 87). The lower case of any other character consists of non-ASCII
    characters again; the character itself is kept for it, which makes no
    difference to a search for ASCII text, the one use this code base
    makes of the result. *)
Fixpoint toLowerCase (s : string) : string :=
  match s with
  | EmptyString => EmptyString
  | String a rest =>
      match rest with
      | EmptyString => String (lower_ascii a) EmptyString
      | String b rest2 =>
          if byte 196 a && byte 176 b then
            String "i" (String (Ascii.ascii_of_N 204)
                          (String (Ascii.ascii_of_N 135) (toLowerCase rest2)))
          else
            match rest2 with
            | EmptyString => String (lower_ascii a) (toLowerCase rest)
            | String c rest3 =>
                if byte 226 a && byte 132 b && byte 170 c
                then String "k" (toLowerCase rest3)
                else String (lower_ascii a) (toLowerCase rest)
            end
      end
  end.

(** Decimal rendering of a natural number inside a template literal. *)
Definition decimal (n : N) : string :=
  NilZero.string_of_uint (N.to_uint n).

End Js.
Import Js.

(** ** [dist/utils/logger.js] *)

Module Logger.

Inductive Level := ERROR | WARN | INFO | DEBUG.

(** One call of [logger.error], [logger.warn], [logger.info] or
    [logger.debug]: level, message and the metadata argument. *)
Record LogCall := {
  level : Level;
  text : string;
  meta : JsObject
}.

Definition REDACTED : JsValue := VStr "[REDACTED]".

Definition sensitiveKeys : list string :=
  [ "api_key"; "apiKey"; "key"; "password"; "secret"; "token" ].

(** [sensitiveKeys.some(sensitive => key.toLowerCase().includes(sensitive))] *)
Definition is_sensitive (key : string) : bool :=
  existsb (fun sensitive => includes (toLowerCase key) sensitive) sensitiveKeys.

(** The body of the loop of [sanitizeMetadata] for one key. *)
Definition redact (sanitized : JsObject) (key : string) : JsObject :=
  if is_sensitive key then assign sanitized key REDACTED else sanitized.

(** [sanitizeMetadata(meta)]: a shallow copy of [meta] in which the loop
    over [Object.keys(sanitized)] overwrites the value of every sensitive
    key; [{}] when [meta] is missing. *)
Definition sanitizeMetadata (meta : option JsObject) : JsObject :=
  match meta with
  | None => []
  | Some meta => fold_left redact (keys meta) meta
  end.

(** The redaction rule in the words of the specification: the lowercased
    name contains one of these substrings. *)
Definition spec_sensitive_substrings : list string :=
  [ "api_key"; "apikey"; "key"; "password"; "secret"; "token" ].

Definition spec_sensitive (key : string) : bool :=
  existsb (fun sub => includes (toLowerCase key) sub) spec_sensitive_substrings.

End Logger.

(** ** [dist/utils/errors.js] *)

Module Errors.

(** A status code as the error carries it: the numeric literals of the
    client, or whatever [error.code] held. *)
Inductive Code :=
  | CodeNum (n : N)
  | CodeStr (s : string).

Definition truthy_code (c : option Code) : bool :=
  match c with
  | Some (CodeNum n) => negb (n =? 0)%N
  | Some (CodeStr s) => negb (String.eqb s "")
  | None => false
  end.

(** [`${code}`] *)
Definition show_code (c : option Code) : string :=
  match c with
  | Some (CodeNum n) => decimal n
  | Some (CodeStr s) => s
  | None => "undefined"
  end.

(** [`${s}`] for a [string | undefined] *)
Definition show (s : option string) : string :=
  match s with
  | Some s => s
  | None => "undefined"
  end.

(** An instance of [ExternalApiError]. *)
Record ExternalApiError := {
  message : string;
  statusCode : option Code;
  apiResponse : option string
}.

(** [new ExternalApiError(message, statusCode, apiResponse)]: the
    constructor prefixes the message. *)
Definition new_ExternalApiError
    (message : string) (statusCode : option Code) (apiResponse : option string)
    : ExternalApiError :=
  {| message := "External API error: " ++ message;
     statusCode := statusCode;
     apiResponse := apiResponse |}.

(** Any other thrown value, by the properties the code reads from it. *)
Record Value := {
  is_Error : bool;             (* [error instanceof Error] *)
  code : option Code;          (* [error.code] *)
  details : option string;     (* [error.details] *)
  msg : option string;         (* [error.message] *)
  stack : option string;       (* [error.stack] *)
  rendering : string           (* [String(error)] *)
}.

(** What a [catch (error)] clause can receive. Of the values that are
    neither nullish nor an [ExternalApiError], some cannot be written by
    [JSON.stringify], which throws a [TypeError] on them (a circular
    structure, a [BigInt]); [complaint] is the message of that error. *)
Inductive Thrown :=
  | Nullish (rendering : string)         (* [null] or [undefined] *)
  | ApiError (e : ExternalApiError)
  | Other (v : Value)                    (* [JSON.stringify] can write it *)
  | Unserializable (v : Value) (complaint : string).

(** A [TypeError] with the given message, as the runtime raises it. *)
Definition TypeError (text : string) : Thrown :=
  Other {| is_Error := true; code := None; details := None;
           msg := Some text; stack := None;
           rendering := "TypeError: " ++ text |}.

(** [formatErrorForUser(error)] *)
Definition formatErrorForUser (error : Thrown) : string :=
  match error with
  | ApiError e =>
      "API request failed"
      ++ (if truthy_code (statusCode e)
          then " (status " ++ show_code (statusCode e) ++ ")"
          else "")
      ++ ": " ++ message e
  | Other v => if is_Error v then show (msg v) else rendering v
  | Unserializable v _ => if is_Error v then show (msg v) else rendering v
  | Nullish rendering => rendering
  end.

End Errors.

(** ** [dist/api/geminiClient.js]

    Of the log calls of this module, what is kept is what can change the
    course of the call: the property reads that build their arguments,
    and [JSON.stringify] in [logToConsole], which the error entry of the
    [catch] clause runs on the thrown value itself. The logger writes
    error entries at every level. *)

Module GeminiClient.
Import Errors.

Record Config := {
  geminiApiKey : string;
  requestTimeoutMs : N
}.

Record GeminiApiParams := {
  model : string;
  prompt : string;
  temperature : option Q;
  maxOutputTokens : option Q;
  topK : option Q;
  topP : option Q;
  enableGrounding : option bool
}.

Record GenerationConfig := {
  gc_temperature : Q;
  gc_maxOutputTokens : Q;
  gc_topK : option Q;
  gc_topP : option Q
}.

Record RequestOptions := {
  ro_model : string;
  ro_contents : string;
  ro_generationConfig : GenerationConfig;
  ro_tools : option (list string)
}.

Record Candidate := {
  c_finishReason : option string;
  c_safetyRatings : option (list JsValue)
}.

(** The SDK's response object, by what the client reads from it. *)
Record GenerateContentResponse := {
  r_text : option string;                  (* [response.text] *)
  r_candidates : option (list Candidate);  (* [response.candidates] *)
  r_json : string                          (* [JSON.stringify(response)] *)
}.

Record GeminiApiResponse := {
  text : string;
  finishReason : option string;
  safetyRatings : option (list JsValue)
}.

Inductive Settled (A : Type) :=
  | Resolved (a : A)
  | Rejected (error : Thrown).
Arguments Resolved {A} a.
Arguments Rejected {A} error.

(** The outbound collaborator: whether the singleton client exists
    already, and what [ai.models.generateContent] does with a request. *)
Record Sdk := {
  genAIClient : bool;
  generateContent : RequestOptions -> Settled GenerateContentResponse
}.

(** [getGenAIClient()] *)
Definition getGenAIClient (config : Config) (sdk : Sdk) : Settled unit :=
  if negb (genAIClient sdk) && negb (truthy (Some (geminiApiKey config)))
  then Rejected (ApiError (new_ExternalApiError
         "Gemini API key not found in configuration"
         (Some (CodeNum 401)) (Some "Missing API key")))
  else Resolved tt.

(** The [try] block of [callGeminiApi]. *)
Definition callGeminiApi_try (config : Config) (sdk : Sdk) (params : GeminiApiParams)
    : Settled GeminiApiResponse :=
  let temperature := default (7 # 10) (temperature params) in
  let maxOutputTokens := default (2048 # 1) (maxOutputTokens params) in
  let enableGrounding := default false (enableGrounding params) in
  match getGenAIClient config sdk with
  | Rejected e => Rejected e
  | Resolved _ =>
      let requestOptions :=
        {| ro_model := model params;
           ro_contents := prompt params;
           ro_generationConfig :=
             {| gc_temperature := temperature;
                gc_maxOutputTokens := maxOutputTokens;
                gc_topK := topK params;
                gc_topP := topP params |};
           ro_tools :=
             if enableGrounding then Some ["googleSearchRetrieval"] else None |} in
      match generateContent sdk requestOptions with
      | Rejected e => Rejected e
      | Resolved response =>
          match head (default [] (r_candidates response)) with
          | None =>
              Rejected (ApiError (new_ExternalApiError
                "No candidates found in Gemini response"
                (Some (CodeNum 200)) (Some "Empty candidates array")))
          | Some candidate =>
              if truthy (r_text response)
              then Resolved {| text := default "" (r_text response);
                               finishReason := c_finishReason candidate;
                               safetyRatings := c_safetyRatings candidate |}
              else Rejected (ApiError (new_ExternalApiError
                     "Could not parse Gemini response - missing text content"
                     (Some (CodeNum 200))
                     (Some (String.substring 0 200 (r_json response)))))
          end
      end
  end.

(** [error.code === name] *)
Definition code_is (v : Value) (name : string) : bool :=
  match code v with
  | Some (CodeStr s) => String.eqb s name
  | _ => false
  end.

(** The [catch (error)] clause of [callGeminiApi]. An [ExternalApiError]
    is thrown again at once. For anything else the error entry is logged
    first: reading [error.message] for it raises a [TypeError] when
    [error] is [null] or [undefined], and writing the entry raises one
    when [JSON.stringify] cannot write [error]; either leaves the clause
    before the error is classified. *)
Definition callGeminiApi_catch (config : Config) (error : Thrown) : Thrown :=
  match error with
  | ApiError e => ApiError e
  | Nullish rendering => TypeError (cannot_read rendering "message")
  | Unserializable _ complaint => TypeError complaint
  | Other v =>
      if code_is v "DEADLINE_EXCEEDED" then
        ApiError (new_ExternalApiError
          ("Request timed out after " ++ decimal (requestTimeoutMs config) ++ "ms")
          (Some (CodeNum 408)) (Some "Request took too long to complete"))
      else if code_is v "RESOURCE_EXHAUSTED" then
        ApiError (new_ExternalApiError
          "Rate limit exceeded for Gemini API"
          (Some (CodeNum 429)) (Some "Too many requests"))
      else if truthy (details v) then
        ApiError (new_ExternalApiError
          ("Gemini API error: " ++ show (msg v))
          (if truthy_code (code v) then code v else Some (CodeNum 500))
          (details v))
      else
        ApiError (new_ExternalApiError
          (if truthy (msg v) then show (msg v)
           else "Unknown error occurred calling Gemini API")
          (Some (CodeNum 500)) (stack v))
  end.

(** [callGeminiApi(params)] *)
Definition callGeminiApi (config : Config) (sdk : Sdk) (params : GeminiApiParams)
    : Settled GeminiApiResponse :=
  match callGeminiApi_try config sdk params with
  | Resolved r => Resolved r
  | Rejected error => Rejected (callGeminiApi_catch config error)
  end.

End GeminiClient.

(** ** [src/tools/geminiTool.ts] *)

Module GeminiTool.
Import Errors GeminiClient.

(** *** The zod combinators the schema is built from *)

Inductive Issue :=
  | invalid_type (path : string)               (* wrong type, or required and missing *)
  | failed_check (path : string) (message : string).

(** A schema parses the value found at [path]. *)
Definition Schema (A : Type) : Type := string -> JsValue -> list Issue + A.

(** A refinement with the message it reports. *)
Record Check (A : Type) := {
  test : A -> bool;
  report : string
}.
Arguments test {A} c a.
Arguments report {A} c.

Definition run_checks {A} (path : string) (checks : list (Check A)) (a : A)
    : list Issue :=
  flat_map (fun c => if test c a then [] else [failed_check path (report c)]) checks.

Definition checked {A} (path : string) (checks : list (Check A)) (a : A)
    : list Issue + A :=
  match run_checks path checks a with
  | [] => inr a
  | issues => inl issues
  end.

(** [z.string()] followed by its checks *)
Definition z_string (checks : list (Check string)) : Schema string :=
  fun path v =>
    match v with
    | VStr s => checked path checks s
    | _ => inl [invalid_type path]
    end.

(** [z.number()] followed by its checks *)
Definition z_number (checks : list (Check Q)) : Schema Q :=
  fun path v =>
    match v with
    | VNum q => checked path checks q
    | _ => inl [invalid_type path]
    end.

(** [z.boolean()] *)
Definition z_boolean : Schema bool :=
  fun path v =>
    match v with
    | VBool b => inr b
    | _ => inl [invalid_type path]
    end.

(** [.optional()] *)
Definition optional {A} (inner : Schema A) : Schema (option A) :=
  fun path v =>
    match v with
    | VUndefined => inr None
    | _ => match inner path v with
           | inl issues => inl issues
           | inr a => inr (Some a)
           end
    end.

(** [.default(d)]: a missing value is replaced by [d] before parsing. *)
Definition default_ {A} (d : JsValue) (inner : Schema A) : Schema A :=
  fun path v =>
    match v with
    | VUndefined => inner path d
    | _ => inner path v
    end.

(** [.min(n)] on strings. The schema only asks for length 1, which a
    string has in bytes exactly when it has it in UTF-16 units. *)
Definition str_min (n : nat) (message : string) : Check string :=
  {| test := fun s => Nat.leb n (String.length s); report := message |}.

(** [.min(n)], [.max(n)], [.int()], [.positive()] on numbers *)
Definition num_min (n : Q) (message : string) : Check Q :=
  {| test := fun q => Qle_bool n q; report := message |}.

Definition num_max (n : Q) (message : string) : Check Q :=
  {| test := fun q => Qle_bool q n; report := message |}.

Definition isInteger (q : Q) : bool :=
  (Qnum q mod Z.pos (Qden q) =? 0)%Z.

Definition num_int (message : string) : Check Q :=
  {| test := isInteger; report := message |}.

Definition num_positive (message : string) : Check Q :=
  {| test := fun q => (0 <? Qnum q)%Z; report := message |}.

(** *** [geminiToolSchema] *)

Definition schema_model : Schema string :=
  default_ (VStr "gemini-1.5-flash-latest") (z_string []).

Definition schema_prompt : Schema string :=
  z_string [str_min 1 "Prompt cannot be empty"].

Definition schema_temperature : Schema (option Q) :=
  default_ (VNum (7 # 10))
    (optional (z_number [ num_min 0 "Temperature must be at least 0";
                          num_max 1 "Temperature must be at most 1" ])).

Definition schema_maxOutputTokens : Schema (option Q) :=
  default_ (VNum (2048 # 1))
    (optional (z_number [ num_int "Must be an integer";
                          num_positive "Must be positive";
                          num_max (8192 # 1) "Cannot exceed 8192 tokens" ])).

Definition schema_topK : Schema (option Q) :=
  optional (z_number [ num_int "Must be an integer";
                       num_positive "Must be positive" ]).

Definition schema_topP : Schema (option Q) :=
  optional (z_number [ num_min 0 "Must be at least 0";
                       num_max 1 "Must be at most 1" ]).

Definition schema_enableGrounding : Schema (option bool) :=
  default_ (VBool true) (optional z_boolean).

(** [GeminiToolInput] *)
Record GeminiToolInput := {
  model : string;
  prompt : string;
  temperature : option Q;
  maxOutputTokens : option Q;
  topK : option Q;
  topP : option Q;
  enableGrounding : option bool
}.

Definition issues_of {A} (r : list Issue + A) : list Issue :=
  match r with
  | inl issues => issues
  | inr _ => []
  end.

(** [geminiToolInputSchema = z.object(geminiToolSchema)]: every field is
    parsed and the issues of all fields are reported together. *)
Definition geminiToolInputSchema (args : JsValue) : list Issue + GeminiToolInput :=
  match args with
  | VObj fields =>
      let model := schema_model "model" (get fields "model") in
      let prompt := schema_prompt "prompt" (get fields "prompt") in
      let temperature := schema_temperature "temperature" (get fields "temperature") in
      let maxOutputTokens :=
        schema_maxOutputTokens "maxOutputTokens" (get fields "maxOutputTokens") in
      let topK := schema_topK "topK" (get fields "topK") in
      let topP := schema_topP "topP" (get fields "topP") in
      let enableGrounding :=
        schema_enableGrounding "enableGrounding" (get fields "enableGrounding") in
      match model, prompt, temperature, maxOutputTokens, topK, topP, enableGrounding with
      | inr model, inr prompt, inr temperature, inr maxOutputTokens,
        inr topK, inr topP, inr enableGrounding =>
          inr {| model := model; prompt := prompt; temperature := temperature;
                 maxOutputTokens := maxOutputTokens; topK := topK; topP := topP;
                 enableGrounding := enableGrounding |}
      | _, _, _, _, _, _, _ =>
          inl (issues_of model ++ issues_of prompt ++ issues_of temperature
               ++ issues_of maxOutputTokens ++ issues_of topK ++ issues_of topP
               ++ issues_of enableGrounding)
      end
  | _ => inl [invalid_type ""]
  end.

(** *** The tool callback *)

Record ContentItem := {
  type : string;
  text : string
}.

Record CallToolResult := {
  content : list ContentItem;
  isError : option bool
}.

(** What the callback hands to the protocol layer: a result, or an
    exception that escaped it. *)
Inductive Completion :=
  | Returns (result : CallToolResult)
  | Throws (error : Thrown).

(** The parameters the callback passes to [callGeminiApi]. *)
Definition api_params (args : GeminiToolInput) : GeminiApiParams :=
  {| GeminiClient.model := model args;
     GeminiClient.prompt := prompt args;
     GeminiClient.temperature := temperature args;
     GeminiClient.maxOutputTokens := maxOutputTokens args;
     GeminiClient.topK := topK args;
     GeminiClient.topP := topP args;
     GeminiClient.enableGrounding := enableGrounding args |}.

Definition text_item (s : string) : ContentItem :=
  {| type := "text"; text := s |}.

(** The callback registered by [registerGeminiTool]. In its [catch]
    clause the error entry is logged before the result is built: it reads
    [(error as Error).message] and writes [error] with [JSON.stringify],
    and an exception of either leaves the callback. *)
Definition callGemini (config : Config) (sdk : Sdk) (args : GeminiToolInput)
    : Completion :=
  match callGeminiApi config sdk (api_params args) with
  | Resolved response =>
      Returns {| content := [text_item (GeminiClient.text response)];
                 isError := None |}
  | Rejected error =>
      match error with
      | Nullish rendering => Throws (TypeError (cannot_read rendering "message"))
      | Unserializable _ complaint => Throws (TypeError complaint)
      | _ =>
          Returns {| content :=
                       [text_item ("Error interacting with Gemini API: "
                                   ++ formatErrorForUser error)];
                     isError := Some true |}
      end
  end.

(** The result the specification gives for an outbound timeout. *)
Definition spec_timeout_result : CallToolResult :=
  {| content :=
       [text_item "Error interacting with Gemini API: API request failed (status 408): Request timed out after 30000ms"];
     isError := Some true |}.

(** A [tools/call] request for [callGemini] as the protocol server
    dispatches it: the arguments are parsed with the registered schema and
    the callback runs on the parsed value only. *)
Inductive ToolCall :=
  | InvalidParams (issues : list Issue)
  | Invoked (completion : Completion).

Definition callTool (config : Config) (sdk : Sdk) (arguments : JsValue) : ToolCall :=
  match geminiToolInputSchema arguments with
  | inl issues => InvalidParams issues
  | inr args => Invoked (callGemini config sdk args)
  end.

End GeminiTool.

(** ** [src/http-server.ts] *)

Module HttpServer.
Import Logger.

Record Request := {
  mcp_session_id : option string;   (* [req.headers['mcp-session-id']] *)
  method : string;                  (* [req.method] *)
  body : JsValue                    (* [req.body] *)
}.

Record Response := {
  headersSent : bool;
  statusCode : Z;
  sent : list JsValue
}.

(** The response object a request arrives with. *)
Definition new_Response : Response :=
  {| headersSent := false; statusCode := 200; sent := [] |}.

(** The callbacks the route installs on a transport. *)
Inductive Callback :=
  | SessionInitialized (newSessionId : string)
  | Closed.

(** What [transport.handleRequest(req, res, req.body)] did: the response
    as it left it, the callbacks it invoked, and what it rejected with,
    if it did. *)
Record Handling := {
  response : Response;
  callbacks : list Callback;
  rejects : option Rejection
}.

(** What [transport.close()] does: whether it runs the [onclose] handler,
    and the error it rejects with, if any. *)
Record Closing := {
  notifies : bool;
  fails : option JsError
}.

(** A [StreamableHTTPServerTransport]. The methods are the protocol
    library's; the model takes their behaviour as given. *)
Record Transport := {
  object_id : nat;
  sessionId : option string;        (* [transport.sessionId] *)
  handleRequest : Request -> Response -> Handling;
  close : Closing
}.

(** The transport once the library has assigned its session id. *)
Definition with_sessionId (id : string) (t : Transport) : Transport :=
  {| object_id := object_id t; sessionId := Some id;
     handleRequest := handleRequest t; close := close t |}.

(** The protocol library and server object the entry point is linked with. *)
Record Sdk := {
  isInitializeRequest : JsValue -> bool;
  new_transport : nat -> Transport;   (* the object the n-th call constructs *)
  connect : Transport -> option Rejection; (* [mcpServer.connect(transport)] rejects *)
  server_close : option JsError            (* [mcpServer.close()] rejects *)
}.

(** Calls into the library and the runtime, in the order they are made. *)
Inductive Call :=
  | new_StreamableHTTPServerTransport (t : Transport)
  | mcpServer_connect (t : Transport)
  | transport_handleRequest (t : Transport) (req : Request)
  | transport_close (sessionId : string) (t : Transport)
  | mcpServer_close
  | process_exit (code : Z).

(** A run of [handleShutdown] suspended at one of its [await]s: the
    promise it waits for, how that promise settles, and what is left of
    the [for ... in] loop. *)
Inductive Task :=
  | AwaitTransportClose (sessionId : string) (settles : option JsError)
                        (remaining : list string)
  | AwaitServerClose (settles : option JsError)
  | Completed.

(** The state of the server process. [transports] holds the own
    properties of the registry object, [inserted] their names in the
    order in which they were added, which is the order in which the
    object enumerates names that are not array indices; the names the
    code adds are the ids the library announces, which come from
    [randomUUID]. *)
Record Process := {
  transports : gmap string Transport;
  inserted : list string;
  logged : list LogCall;
  calls : list Call;
  tasks : list Task;
  exited : option Z
}.

Definition start : Process :=
  {| transports := ∅; inserted := []; logged := []; calls := []; tasks := [];
     exited := None |}.

(** The process with the registry [m], its properties added in the order
    in which the map lists them. *)
Definition set_transports (m : gmap string Transport) (p : Process) : Process :=
  {| transports := m; inserted := (map_to_list m).*1; logged := logged p;
     calls := calls p; tasks := tasks p; exited := exited p |}.

Definition set_tasks (ts : list Task) (p : Process) : Process :=
  {| transports := transports p; inserted := inserted p; logged := logged p;
     calls := calls p; tasks := ts; exited := exited p |}.

Definition set_exited (code : Z) (p : Process) : Process :=
  {| transports := transports p; inserted := inserted p; logged := logged p;
     calls := calls p; tasks := tasks p; exited := Some code |}.

(** [transports[key] = transport]: a new property goes to the end of the
    enumeration, an existing one keeps its place. *)
Definition assign_transport (key : string) (transport : Transport) (p : Process)
    : Process :=
  {| transports := <[key := transport]> (transports p);
     inserted := if bool_decide (is_Some (transports p !! key))
                 then inserted p else inserted p ++ [key];
     logged := logged p; calls := calls p; tasks := tasks p; exited := exited p |}.

(** [delete transports[key]] *)
Definition delete_transport (key : string) (p : Process) : Process :=
  {| transports := delete key (transports p);
     inserted := filter (fun k => k ≠ key) (inserted p);
     logged := logged p; calls := calls p; tasks := tasks p; exited := exited p |}.

Definition logger (level : Level) (text : string) (meta : JsObject) (p : Process)
    : Process :=
  {| transports := transports p; inserted := inserted p;
     logged := logged p ++ [ {| level := level; text := text; meta := meta |} ];
     calls := calls p; tasks := tasks p; exited := exited p |}.

Definition called (c : Call) (p : Process) : Process :=
  {| transports := transports p; inserted := inserted p; logged := logged p;
     calls := calls p ++ [c]; tasks := tasks p; exited := exited p |}.

(** *** The registry *)

(** The result of the property read [transports[key]]. *)
Inductive Property :=
  | Own (t : Transport)
  | Inherited
  | Undefined.

Definition read (transports : gmap string Transport) (key : string) : Property :=
  match transports !! key with
  | Some t => Own t
  | None => if inherited key then Inherited else Undefined
  end.

Definition truthy_property (v : Property) : bool :=
  match v with
  | Undefined => false
  | _ => true
  end.

(** [sessionId && transports[sessionId]] *)
Definition and_read (sessionId : option string) (transports : gmap string Transport)
    : Property :=
  match sessionId with
  | Some id => if truthy (Some id) then read transports id else Undefined
  | None => Undefined
  end.

(** The [onsessioninitialized] callback of [transport]. *)
Definition onsessioninitialized (transport : Transport) (newSessionId : string)
    (p : Process) : Process :=
  logger INFO "Session initialized" [("sessionId", VStr newSessionId)]
    (assign_transport newSessionId transport p).

(** The [onclose] handler of [transport]. *)
Definition onclose (transport : Transport) (p : Process) : Process :=
  match sessionId transport with
  | Some id =>
      if truthy_property (and_read (Some id) (transports p))
      then logger INFO "Session closed" [("sessionId", VStr id)]
             (delete_transport id p)
      else p
  | None => p
  end.

(** The callbacks a library call invokes, in order. The library assigns
    [transport.sessionId] before it announces the session. *)
Fixpoint run_callbacks (transport : Transport) (cbs : list Callback) (p : Process)
    : Process :=
  match cbs with
  | [] => p
  | SessionInitialized id :: rest =>
      run_callbacks (with_sessionId id transport) rest
        (onsessioninitialized (with_sessionId id transport) id p)
  | Closed :: rest => run_callbacks transport rest (onclose transport p)
  end.

(** The history of one registry, as the sequence of callback invocations. *)
Inductive RegistryEvent :=
  | Initialized (t : Transport) (newSessionId : string)
  | Closes (t : Transport).

Definition apply_event (p : Process) (ev : RegistryEvent) : Process :=
  match ev with
  | Initialized t id => onsessioninitialized t id p
  | Closes t => onclose t p
  end.

Definition replay (history : list RegistryEvent) : Process :=
  fold_left apply_event history start.

(** [randomUUID()] returns 36 characters: hexadecimal digits in groups of
    8, 4, 4, 4 and 12, separated by dashes. *)
Definition is_hex (c : ascii) : bool :=
  let n := Ascii.N_of_ascii c in
  ((48 <=? n) && (n <=? 57) || (97 <=? n) && (n <=? 102))%N.

Fixpoint matches (pattern s : string) : bool :=
  match pattern, s with
  | EmptyString, EmptyString => true
  | String "-" pattern, String c s => Ascii.eqb c "-" && matches pattern s
  | String _ pattern, String c s => is_hex c && matches pattern s
  | _, _ => false
  end.

Definition is_uuid (s : string) : bool :=
  matches "xxxxxxxx-xxxx-xxxx-xxxx-xxxxxxxxxxxx" s.

Definition transport_of (ev : RegistryEvent) : Transport :=
  match ev with
  | Initialized t _ => t
  | Closes t => t
  end.

(** What the protocol library guarantees about the callbacks of a
    history: a session is announced under the id the transport carries,
    that id came from [sessionIdGenerator], which is [randomUUID], and no
    two transports carry the same id. *)
Record library_contract (history : list RegistryEvent) : Prop := {
  announced_id_is_uuid :
    forall t id, Initialized t id ∈ history -> is_uuid id = true;
  announced_id_is_assigned :
    forall t id, Initialized t id ∈ history -> sessionId t = Some id;
  ids_are_unique :
    forall e1 e2 id, e1 ∈ history -> e2 ∈ history ->
      sessionId (transport_of e1) = Some id ->
      sessionId (transport_of e2) = Some id ->
      transport_of e1 = transport_of e2
}.

(** [t] was registered for [id] and its [onclose] handler has not run
    since. *)
Definition registered_and_not_removed
    (history : list RegistryEvent) (id : string) (t : Transport) : Prop :=
  exists before after,
    history = before ++ Initialized t id :: after /\ Closes t ∉ after.

(** *** The [/mcp] route *)

(** One request being handled: the response object and the process. *)
Record Exchange := {
  res : Response;
  proc : Process
}.

Inductive Outcome (A : Type) :=
  | Normal (a : A)
  | Exception (error : Rejection).
Arguments Normal {A} a.
Arguments Exception {A} error.

(** Handler code: it updates the exchange and completes or throws. *)
Definition Async (A : Type) : Type := Exchange -> Outcome A * Exchange.

Definition ret {A} (a : A) : Async A := fun x => (Normal a, x).

Definition bind {A B} (m : Async A) (k : A -> Async B) : Async B :=
  fun x =>
    match m x with
    | (Normal a, x') => k a x'
    | (Exception e, x') => (Exception e, x')
    end.

Definition throw {A} (e : Rejection) : Async A := fun x => (Exception e, x).

Definition try_catch {A} (m : Async A) (handler : Rejection -> Async A) : Async A :=
  fun x =>
    match m x with
    | (Normal a, x') => (Normal a, x')
    | (Exception e, x') => handler e x'
    end.

Definition on_process (f : Process -> Process) : Async unit :=
  fun x => (Normal tt, {| res := res x; proc := f (proc x) |}).

Definition get_exchange : Async Exchange := fun x => (Normal x, x).

#[local] Instance Async_ret : MRet Async := @ret.
#[local] Instance Async_bind : MBind Async := fun A B k m => bind m k.

(** [res.status(code).json(payload)]; Express refuses it once the headers
    are out. *)
Definition status_json (code : Z) (payload : JsValue) : Async unit :=
  fun x =>
    if headersSent (res x)
    then (Exception
            (Raised {| message := "Cannot set headers after they are sent to the client";
                       stack := None |}), x)
    else (Normal tt,
          {| res := {| headersSent := true; statusCode := code;
                       sent := sent (res x) ++ [payload] |};
             proc := proc x |}).

(** [await mcpServer.connect(transport)] *)
Definition await_connect (sdk : Sdk) (transport : Transport) : Async unit :=
  on_process (called (mcpServer_connect transport));;
  match connect sdk transport with
  | Some e => throw e
  | None => ret tt
  end.

(** [await transport.handleRequest(req, res, req.body)] on whatever the
    variable [transport] holds. *)
Definition await_handleRequest (transport : Property) (req : Request) : Async unit :=
  match transport with
  | Own t =>
      fun x =>
        let h := handleRequest t req (res x) in
        let x' := {| res := response h;
                     proc := run_callbacks t (callbacks h)
                               (called (transport_handleRequest t req) (proc x)) |} in
        match rejects h with
        | Some e => (Exception e, x')
        | None => (Normal tt, x')
        end
  | Inherited =>
      throw (Raised {| message := "transport.handleRequest is not a function";
                       stack := None |})
  | Undefined =>
      throw (Raised {| message := cannot_read "undefined" "handleRequest";
                       stack := None |})
  end.

Definition is_init (sdk : Sdk) (req : Request) : bool :=
  String.eqb (method req) "POST" && isInitializeRequest sdk (body req).

(** The [try] block of the route. *)
Definition mcp_try (sdk : Sdk) (req : Request) : Async unit :=
  let sessionId := mcp_session_id req in
  x ← get_exchange;
  let existing := and_read sessionId (transports (proc x)) in
  if truthy_property existing then
    (* Existing session *)
    await_handleRequest existing req
  else if negb (truthy sessionId) && String.eqb (method req) "POST"
          && isInitializeRequest sdk (body req) then
    (* New session initialization *)
    let transport := new_transport sdk (length (calls (proc x))) in
    on_process (called (new_StreamableHTTPServerTransport transport));;
    await_connect sdk transport;;
    await_handleRequest (Own transport) req
  else
    (* Invalid request *)
    on_process (logger WARN "Invalid MCP request"
                  [ ("sessionId", of_string sessionId);
                    ("method", VStr (method req));
                    ("isInit", VBool (is_init sdk req)) ]);;
    status_json 400 (VObj [("error", VStr "Invalid MCP request")]).

(** The [catch (error)] clause of the route. Its first step reads
    [(error as Error).message] for the log entry: on [null] or
    [undefined] that read throws, and the clause is left with nothing
    logged and nothing written. *)
Definition mcp_catch (req : Request) (error : Rejection) : Async unit :=
  match error with
  | RaisedNullish rendering =>
      throw (Raised {| message := cannot_read rendering "message"; stack := None |})
  | Raised error =>
      on_process (logger ERROR "Error handling MCP request"
                    [ ("error", VStr (message error));
                      ("sessionId", of_string (mcp_session_id req)) ]);;
      x ← get_exchange;
      if negb (headersSent (res x))
      then status_json 500 (VObj [("error", VStr "Internal server error")])
      else ret tt
  end.

(** [app.all('/mcp', async (req, res) => ...)] *)
Definition mcp (sdk : Sdk) (req : Request) : Async unit :=
  try_catch (mcp_try sdk req) (mcp_catch req).

(** The route run on a request as it arrives. *)
Definition serve (sdk : Sdk) (req : Request) (p : Process) : Outcome unit * Exchange :=
  mcp sdk req {| res := new_Response; proc := p |}.

(** The three actions of the specification's router, and its decision
    procedure in the specification's words: an id that the registry
    knows continues its session; no id, POST and an initialization body
    begin one; everything else is rejected. *)
Inductive Action :=
  | continue_session (t : Transport)
  | begin_session
  | reject.

Definition spec_route (sdk : Sdk) (req : Request) (registry : gmap string Transport)
    : Action :=
  match mcp_session_id req with
  | Some id =>
      match registry !! id with
      | Some t => continue_session t
      | None => reject
      end
  | None =>
      if String.eqb (method req) "POST" && isInitializeRequest sdk (body req)
      then begin_session
      else reject
  end.

(** The calls the route made while it handled a request. *)
Definition new_calls (before : Process) (after : Exchange) : list Call :=
  drop (length (calls before)) (calls (proc after)).

(** The response of the reject branch. *)
Definition invalid_request : Response :=
  {| headersSent := true; statusCode := 400;
     sent := [VObj [("error", VStr "Invalid MCP request")]] |}.

(** The response of the catch clause when nothing was sent before. *)
Definition internal_server_error (before : Response) : Response :=
  {| headersSent := true; statusCode := 500;
     sent := sent before ++ [VObj [("error", VStr "Internal server error")]] |}.

(** The route carries out an action on a request: what it calls and what
    it answers. A new session's transport receives the request once
    [mcpServer.connect] has resolved. *)
Definition acts_as (action : Action) (sdk : Sdk) (req : Request) (p : Process) : Prop :=
  let x := (serve sdk req p).2 in
  match action with
  | continue_session t => new_calls p x = [transport_handleRequest t req]
  | begin_session =>
      let t := new_transport sdk (length (calls p)) in
      new_calls p x =
        [new_StreamableHTTPServerTransport t; mcpServer_connect t]
        ++ match connect sdk t with
           | Some _ => []
           | None => [transport_handleRequest t req]
           end
  | reject =>
      res x = invalid_request /\ new_calls p x = []
      /\ transports (proc x) = transports p
  end.

(** The route does what the specification's decision procedure says. *)
Definition follows_spec_route (sdk : Sdk) (req : Request) (p : Process) : Prop :=
  acts_as (spec_route sdk req (transports p)) sdk req p.

(** *** Shutdown *)

(** The keys a [for (const sessionId in transports)] loop sets out to
    visit: the own properties at the time the loop starts, in the order
    in which they were added. In a process that the callbacks have built
    this is [inserted p] (lemma [for_in_inserted]); to cover every
    [Process] record, names listed twice or not in the registry are
    passed over, and keys the list lacks come last. *)
Definition for_in (p : Process) : list string :=
  filter (fun k => is_Some (transports p !! k)) (remove_dups (inserted p))
  ++ filter (fun k => k ∉ inserted p) (map_to_list (transports p)).*1.

(** [inserted] lists the keys of the registry, each once. *)
Definition enumerates (p : Process) : Prop :=
  NoDup (inserted p)
  /\ forall k, k ∈ inserted p <-> is_Some (transports p !! k).

(** [transports[sessionId].close()]: the call itself, up to the promise
    it returns. The library runs the [onclose] handler inside the call. *)
Definition call_close (sessionId : string) (t : Transport) (p : Process) : Process :=
  let p := called (transport_close sessionId t) p in
  if notifies (close t) then onclose t p else p.

(** The loop of [handleShutdown] from the keys still to visit up to its
    next [await]. A key whose property was deleted before the loop
    reached it is not visited. After the last key the run goes on to
    [await mcpServer.close()]. *)
Fixpoint close_transports (sdk : Sdk) (keys : list string) (p : Process)
    : Process * Task :=
  match keys with
  | [] => (called mcpServer_close p, AwaitServerClose (server_close sdk))
  | sessionId :: remaining =>
      match transports p !! sessionId with
      | None => close_transports sdk remaining p
      | Some t =>
          (call_close sessionId t p,
           AwaitTransportClose sessionId (fails (close t)) remaining)
      end
  end.

(** [handleShutdown()] from its entry to its first [await]. *)
Definition handleShutdown (sdk : Sdk) (p : Process) : Process :=
  let p := logger INFO "Shutting down HTTP server..." [] p in
  let '(p, task) := close_transports sdk (for_in p) p in
  set_tasks (tasks p ++ [task]) p.

(** The loop run from [keys] and stored as task [n]: how a run goes on
    when it is resumed. *)
Definition advance (sdk : Sdk) (n : nat) (keys : list string) (q : Process) : Process :=
  let '(q', task) := close_transports sdk keys q in
  set_tasks (<[n := task]> (tasks q')) q'.

(** A suspended run of [handleShutdown] continues when the promise it
    awaits has settled, and runs to its next [await] or to
    [process.exit(0)]. *)
Definition resume (sdk : Sdk) (i : nat) (p : Process) : Process :=
  match tasks p !! i with
  | Some (AwaitTransportClose sessionId settles remaining) =>
      let p :=
        match settles with
        | None => logger DEBUG "Closed transport" [("sessionId", VStr sessionId)] p
        | Some error =>
            logger WARN "Error closing transport"
              [("sessionId", VStr sessionId); ("error", VStr (message error))] p
        end in
      advance sdk i remaining p
  | Some (AwaitServerClose settles) =>
      let p :=
        match settles with
        | None => logger INFO "MCP server closed successfully" [] p
        | Some error =>
            logger ERROR "Error closing MCP server" [("error", VStr (message error))] p
        end in
      (* Exit with success code *)
      set_exited 0 (called (process_exit 0) (set_tasks (<[i := Completed]> (tasks p)) p))
  | Some Completed => p
  | None => p
  end.

(** [setupGracefulShutdown()]: the listener registered for each event. *)
Definition setupGracefulShutdown (sdk : Sdk) (ev : ProcessEvent) (p : Process)
    : Process :=
  match ev with
  | SIGINT => handleShutdown sdk p
  | SIGTERM => handleShutdown sdk p
  | uncaughtException error =>
      handleShutdown sdk
        (logger ERROR "Uncaught exception"
           [("error", VStr (message error)); ("stack", of_string (stack error))] p)
  | unhandledRejection reason =>
      logger ERROR "Unhandled rejection" [("reason", reason)] p
  end.

(** One turn of the event loop: a process event is delivered to its
    listener, or a suspended run of [handleShutdown] is resumed. Each
    [await] is a suspension point: other turns may come before the run
    that waits there continues. Nothing runs once the process has exited. *)
Inductive Turn :=
  | Emit (ev : ProcessEvent)
  | Resume (task : nat).

Definition turn (sdk : Sdk) (p : Process) (t : Turn) : Process :=
  match exited p with
  | Some _ => p
  | None =>
      match t with
      | Emit ev => setupGracefulShutdown sdk ev p
      | Resume i => resume sdk i p
      end
  end.

Definition run (sdk : Sdk) (turns : list Turn) (p : Process) : Process :=
  fold_left (turn sdk) turns p.

(** The number of times [handleShutdown] was entered. *)
Definition shutdown_entries (p : Process) : nat :=
  length (filter (fun c => text c = "Shutting down HTTP server...") (logged p)).

(** Every entry of the registry sits under the id its transport carries. *)
Definition registered_under_own_id (m : gmap string Transport) : Prop :=
  forall id t, m !! id = Some t -> sessionId t = Some id.



(** [handleShutdown] run from its entry to [process.exit] with no other
    turn in between: the run is entered and then resumed once for each
    registered session and once more for the server. *)
Definition shutdown_alone (sdk : Sdk) (p : Process) : Process :=
  run sdk (repeat (Resume (length (tasks p))) (S (size (transports p))))
    (handleShutdown sdk p).

(** The shutdown sequence is entered at most once over a sequence of
    turns: what the specification asks for. *)
Definition enters_shutdown_at_most_once (sdk : Sdk) (turns : list Turn) (p : Process)
    : Prop :=
  shutdown_entries (run sdk turns p) <= S (shutdown_entries p).

End HttpServer.

(** ** [src/index.ts] *)

Module StdioServer.
Import Logger.

Inductive Call :=
  | mcpServer_close
  | process_exit (code : Z).

(** A run of [handleShutdown] suspended at [await mcpServer.close()]. *)
Inductive Task :=
  | AwaitServerClose (settles : option JsError)
  | Completed.

Record Process := {
  logged : list LogCall;
  calls : list Call;
  tasks : list Task;
  exited : option Z
}.

Definition start : Process :=
  {| logged := []; calls := []; tasks := []; exited := None |}.

Definition logger (level : Level) (text : string) (meta : JsObject) (p : Process)
    : Process :=
  {| logged := logged p ++ [ {| level := level; text := text; meta := meta |} ];
     calls := calls p; tasks := tasks p; exited := exited p |}.

(** [handleShutdown(mcpServer, signal)] from its entry to its [await];
    [server_close] is how [mcpServer.close()] settles. *)
Definition handleShutdown (server_close : option JsError) (signal : string)
    (p : Process) : Process :=
  let p := logger INFO ("Received " ++ signal ++ ", shutting down...") [] p in
  {| logged := logged p; calls := calls p ++ [mcpServer_close];
     tasks := tasks p ++ [AwaitServerClose server_close]; exited := exited p |}.

Definition resume (i : nat) (p : Process) : Process :=
  match tasks p !! i with
  | Some (AwaitServerClose settles) =>
      let p :=
        match settles with
        | None => logger INFO "Server closed successfully" [] p
        | Some error =>
            logger ERROR "Error during shutdown" [("error", VStr (message error))] p
        end in
      (* Exit with success code *)
      {| logged := logged p; calls := calls p ++ [process_exit 0];
         tasks := <[i := Completed]> (tasks p); exited := Some 0%Z |}
  | _ => p
  end.

(** [setupGracefulShutdown(mcpServer)]: the listener registered for each
    event. *)
Definition setupGracefulShutdown (server_close : option JsError) (ev : ProcessEvent)
    (p : Process) : Process :=
  match ev with
  | SIGINT => handleShutdown server_close "SIGINT" p
  | SIGTERM => handleShutdown server_close "SIGTERM" p
  | uncaughtException error =>
      handleShutdown server_close "uncaughtException"
        (logger ERROR "Uncaught exception"
           [("error", VStr (message error)); ("stack", of_string (stack error))] p)
  | unhandledRejection reason =>
      handleShutdown server_close "unhandledRejection"
        (logger ERROR "Unhandled rejection" [("reason", reason)] p)
  end.

Inductive Turn :=
  | Emit (ev : ProcessEvent)
  | Resume (task : nat).

Definition turn (server_close : option JsError) (p : Process) (t : Turn) : Process :=
  match exited p with
  | Some _ => p
  | None =>
      match t with
      | Emit ev => setupGracefulShutdown server_close ev p
      | Resume i => resume i p
      end
  end.

Definition run (server_close : option JsError) (turns : list Turn) (p : Process)
    : Process :=
  fold_left (turn server_close) turns p.

End StdioServer.

(** ** Concrete scenarios *)

Module Scenario.
Import HttpServer.

Definition is_string (v : JsValue) : bool :=
  match v with
  | VStr _ => true
  | _ => false
  end.

Definition optional_object (v : JsValue) : bool :=
  match v with
  | VUndefined | VObj _ => true
  | _ => false
  end.

(** The protocol library's [isInitializeRequest]: the body parses as an
    initialization request, that is, its [method] is [initialize] and its
    [params] is an object with a string [protocolVersion], an object
    [capabilities] (whose [experimental], [sampling] and [roots], if
    given, are objects) and an object [clientInfo] with strings [name]
    and [version]. *)
Definition isInitializeRequest (body : JsValue) : bool :=
  match body with
  | VObj fields =>
      match get fields "method", get fields "params" with
      | VStr m, VObj params =>
          String.eqb m "initialize"
          && optional_object (get params "_meta")
          && is_string (get params "protocolVersion")
          && match get params "capabilities" with
             | VObj capabilities =>
                 optional_object (get capabilities "experimental")
                 && optional_object (get capabilities "sampling")
                 && optional_object (get capabilities "roots")
             | _ => false
             end
          && match get params "clientInfo" with
             | VObj clientInfo =>
                 is_string (get clientInfo "name")
                 && is_string (get clientInfo "version")
             | _ => false
             end
      | _, _ => false
      end
  | _ => false
  end.

Definition initialize : JsValue :=
  VObj [ ("jsonrpc", VStr "2.0"); ("id", VNum 1); ("method", VStr "initialize");
         ("params",
          VObj [ ("protocolVersion", VStr "2024-11-05");
                 ("capabilities", VObj []);
                 ("clientInfo",
                  VObj [("name", VStr "test-client"); ("version", VStr "1.0.0")]) ]) ].

Definition tools_list : JsValue :=
  VObj [("jsonrpc", VStr "2.0"); ("id", VNum 2); ("method", VStr "tools/list")].

Definition answered : Response :=
  {| headersSent := true; statusCode := 200; sent := [VStr "event: message"] |}.

Definition boom : JsError :=
  {| message := "boom"; stack := None |}.

(** A transport that answers every request and closes cleanly. *)
Definition healthy (n : nat) (id : option string) : Transport :=
  {| object_id := n; sessionId := id;
     handleRequest := fun _ _ =>
       {| response := answered; callbacks := []; rejects := None |};
     close := {| notifies := true; fails := None |} |}.

(** A transport that starts its answer and then fails, and whose
    [close] fails too, without running the [onclose] handler. *)
Definition broken (n : nat) (id : option string) : Transport :=
  {| object_id := n; sessionId := id;
     handleRequest := fun _ _ =>
       {| response := answered; callbacks := []; rejects := Some (Raised boom) |};
     close := {| notifies := false; fails := Some boom |} |}.

Definition uuid1 : string := "0b0e7c5a-3f0d-4c59-9d2e-6a1f4f3b2c01".
Definition uuid2 : string := "5d4c3b2a-1f0e-4d9c-8b7a-665544332211".

(** A freshly constructed transport: no session id yet; handling the
    initialization request assigns one and announces it. *)
Definition fresh (n : nat) : Transport :=
  {| object_id := n; sessionId := None;
     handleRequest := fun _ _ =>
       {| response := answered; callbacks := [SessionInitialized uuid1];
          rejects := None |};
     close := {| notifies := true; fails := None |} |}.

Definition sdk : Sdk :=
  {| HttpServer.isInitializeRequest := isInitializeRequest;
     new_transport := fresh;
     connect := fun _ => None;
     server_close := None |}.

(** An initialization request that carries an empty session header. *)
Definition initialize_with_empty_id : Request :=
  {| mcp_session_id := Some ""; method := "POST"; body := initialize |}.

Definition initialize_without_id : Request :=
  {| mcp_session_id := None; method := "POST"; body := initialize |}.

Definition initialize_with_unknown_id : Request :=
  {| mcp_session_id := Some uuid2; method := "POST"; body := initialize |}.

Definition list_tools (id : string) : Request :=
  {| mcp_session_id := Some id; method := "POST"; body := tools_list |}.

(** A process with two sessions; closing the first one fails. *)
Definition two_sessions : Process :=
  set_transports (<["s1" := broken 1 (Some "s1")]> (<["s2" := healthy 2 (Some "s2")]> ∅))
    start.

(** Two sessions are announced, then the first one closes. *)
Definition history : list RegistryEvent :=
  [ Initialized (healthy 1 (Some uuid1)) uuid1;
    Initialized (healthy 2 (Some uuid2)) uuid2;
    Closes (healthy 1 (Some uuid1)) ].

(** The tool side: the default timeout, and an SDK whose call runs into
    the deadline. *)
Definition config : GeminiClient.Config :=
  {| GeminiClient.geminiApiKey := "AIza-example"; GeminiClient.requestTimeoutMs := 30000 |}.

Definition deadline_exceeded : Errors.Value :=
  {| Errors.is_Error := true;
     Errors.code := Some (Errors.CodeStr "DEADLINE_EXCEEDED");
     Errors.details := None;
     Errors.msg := Some "Deadline exceeded";
     Errors.stack := None;
     Errors.rendering := "Error: Deadline exceeded" |}.

Definition timing_out : GeminiClient.Sdk :=
  {| GeminiClient.genAIClient := false;
     GeminiClient.generateContent := fun _ =>
       GeminiClient.Rejected (Errors.Other deadline_exceeded) |}.

Definition args : GeminiTool.GeminiToolInput :=
  {| GeminiTool.model := "gemini-1.5-flash-latest";
     GeminiTool.prompt := "Hello";
     GeminiTool.temperature := Some (7 # 10);
     GeminiTool.maxOutputTokens := Some (2048 # 1);
     GeminiTool.topK := None;
     GeminiTool.topP := None;
     GeminiTool.enableGrounding := Some true |}.

(** Tool arguments as they arrive. *)
Definition only_prompt : JsObject := [("prompt", VStr "Hello")].

Definition hot : JsObject :=
  [("prompt", VStr "Hello"); ("temperature", VNum (3 # 2))].

Definition empty_prompt : JsObject := [("prompt", VStr "")].

Definition too_long : JsObject :=
  [("prompt", VStr "Hello"); ("maxOutputTokens", VNum (9000 # 1))].

(** Log metadata with a secret at top level and one inside a nested
    object. *)
Definition metadata : JsObject :=
  [ ("sessionId", VStr "s1");
    ("apiKey", VStr "AIza-example");
    ("request", VObj [("password", VStr "hunter2"); ("token", VStr "t0k3n")]);
    ("AuthToken", VStr "t0k3n") ].

End Scenario.

(** ** [dist/config.js] *)

Module Config.
Import Logger.

(** The white space [parseInt] skips, a string being held as its UTF-8
    bytes. One byte: TAB, LF, VT, FF, CR and the space. *)
Definition is_space (c : ascii) : bool :=
  let n := Ascii.N_of_ascii c in
  ((n =? 32) || (9 <=? n) && (n <=? 13))%N.

(** Two bytes: the no-break space U+00A0. *)
Definition is_space2 (a b : ascii) : bool := byte 194 a && byte 160 b.

(** Three bytes: U+1680, U+2000 to U+200A, the line and paragraph
    separators U+2028 and U+2029, U+202F, U+205F, U+3000 and U+FEFF. *)
Definition is_space3 (a b c : ascii) : bool :=
  let n := Ascii.N_of_ascii c in
  byte 225 a && byte 154 b && byte 128 c
  || byte 226 a && byte 128 b
     && ((128 <=? n)%N && (n <=? 138)%N || byte 168 c || byte 169 c || byte 175 c)
  || byte 226 a && byte 129 b && byte 159 c
  || byte 227 a && byte 128 b && byte 128 c
  || byte 239 a && byte 187 b && byte 191 c.

Definition is_digit (c : ascii) : bool :=
  let n := Ascii.N_of_ascii c in
  ((48 <=? n) && (n <=? 57))%N.

Fixpoint trimStart (s : string) : string :=
  match s with
  | EmptyString => EmptyString
  | String a rest =>
      if is_space a then trimStart rest
      else
        match rest with
        | EmptyString => s
        | String b rest2 =>
            if is_space2 a b then trimStart rest2
            else
              match rest2 with
              | EmptyString => s
              | String c rest3 => if is_space3 a b c then trimStart rest3 else s
              end
        end
  end.

(** The longest prefix of decimal digits. *)
Fixpoint digits (s : string) : string :=
  match s with
  | EmptyString => EmptyString
  | String c rest => if is_digit c then String c (digits rest) else EmptyString
  end.

(** [parseInt(val, 10)]: leading white space is skipped, a sign is read,
    then as many decimal digits as there are; what follows them is
    ignored. [None] is [NaN], the result when there is no digit. (The
    integer is exact here; a double is exact up to 2^53, far above what
    the schema lets through.) *)
Definition parseInt (val : string) : option Z :=
  let s := trimStart val in
  let '(negative, s) :=
    match s with
    | String c rest =>
        if Ascii.eqb c "-" then (true, rest)
        else if Ascii.eqb c "+" then (false, rest)
        else (false, s)
    | EmptyString => (false, s)
    end in
  match digits s with
  | EmptyString => None
  | ds =>
      match NilEmpty.uint_of_string ds with
      | Some d =>
          let n := Z.of_N (N.of_uint d) in
          Some (if negative then (- n)%Z else n)
      | None => None
      end
  end.

Definition placeholder : string := "YOUR_ACTUAL_GEMINI_API_KEY_HERE".

(** The fields of [envSchema]; [None] stands for a validation issue. A
    variable of [process.env] is a string or is missing. *)
Definition GEMINI_API_KEY (v : option string) : option string :=
  match v with
  | Some key =>
      if Nat.leb 1 (String.length key) && negb (String.eqb key placeholder)
      then Some key
      else None
  | None => None
  end.

(** [z.string().transform(val => parseInt(val, 10))
      .pipe(z.number().int().positive().max(max)).optional().default(d)] *)
Definition integer_variable (d : string) (max : Z) (v : option string) : option Z :=
  match parseInt (default d v) with
  | Some n => if ((0 <? n) && (n <=? max))%Z then Some n else None
  | None => None
  end.

Definition PORT : option string -> option Z := integer_variable "3000" 65535.

Definition REQUEST_TIMEOUT_MS : option string -> option Z :=
  integer_variable "30000" 60000.

(** [z.enum(['error', 'warn', 'info', 'debug']).optional().default('info')] *)
Definition LOG_LEVEL (v : option string) : option Level :=
  let s := default "info" v in
  if String.eqb s "error" then Some ERROR
  else if String.eqb s "warn" then Some WARN
  else if String.eqb s "info" then Some INFO
  else if String.eqb s "debug" then Some DEBUG
  else None.

(** [config] *)
Record t := {
  geminiApiKey : string;
  port : Z;
  requestTimeoutMs : Z;
  logLevel : Level;
  serverInfo_name : string;
  serverInfo_version : string
}.

(** What loading the module does: [process.exit(1)] when
    [envSchema.safeParse(process.env)] fails, the configuration object
    otherwise. *)
Inductive Startup :=
  | Exit (code : Z)
  | Loaded (config : t).

Definition load (env : gmap string string) : Startup :=
  match GEMINI_API_KEY (env !! "GEMINI_API_KEY"), PORT (env !! "PORT"),
        REQUEST_TIMEOUT_MS (env !! "REQUEST_TIMEOUT_MS"),
        LOG_LEVEL (env !! "LOG_LEVEL") with
  | Some key, Some port, Some timeout, Some level =>
      Loaded {| geminiApiKey := key; port := port; requestTimeoutMs := timeout;
                logLevel := level; serverInfo_name := "GeminiMcpServer";
                serverInfo_version := "1.0.0" |}
  | _, _, _, _ => Exit 1
  end.

(** The part of the configuration the API client reads. *)
Definition client (config : t) : GeminiClient.Config :=
  {| GeminiClient.geminiApiKey := geminiApiKey config;
     GeminiClient.requestTimeoutMs := Z.to_N (requestTimeoutMs config) |}.

End Config.

(** ** [dist/utils/logger.js]: the level gate and [logToConsole] *)

Module LoggerOutput.
Import Logger.

(** [LOG_LEVELS] *)
Definition LOG_LEVELS (l : Level) : nat :=
  match l with
  | ERROR => 0
  | WARN => 1
  | INFO => 2
  | DEBUG => 3
  end.

(** The level string each method of [logger] passes on. *)
Definition level_name (l : Level) : string :=
  match l with
  | ERROR => "ERROR"
  | WARN => "WARN"
  | INFO => "INFO"
  | DEBUG => "DEBUG"
  end.

(** [{ ...target, ...source }]: every own key of [source], in order, is
    read from [source] and written to the result. *)
Definition spread (target source : JsObject) : JsObject :=
  fold_left (fun o key => assign o key (get source key)) (keys source) target.

(** [logToConsole(level, message, meta)]: the object given to
    [JSON.stringify]; [timestamp] is [new Date().toISOString()]. *)
Definition logToConsole (timestamp : string) (level : Level) (message : string)
    (meta : option JsObject) : JsObject :=
  spread [ ("timestamp", VStr timestamp);
           ("level", VStr (level_name level));
           ("message", VStr message) ]
         (sanitizeMetadata meta).

(** [logger.error], [logger.warn], [logger.info], [logger.debug] under a
    configured level: the object written to the console, if any. *)
Definition write (configuredLevel : Level) (timestamp : string) (level : Level)
    (message : string) (meta : option JsObject) : option JsObject :=
  if Nat.leb (LOG_LEVELS level) (LOG_LEVELS configuredLevel)
  then Some (logToConsole timestamp level message meta)
  else None.

End LoggerOutput.

(** ** [dist/api/geminiClient.js]: the request *)

Module GeminiRequest.
Import GeminiClient.

(** [requestOptions] as [callGeminiApi] builds it from its parameters. *)
Definition requestOptions (params : GeminiApiParams) : RequestOptions :=
  {| ro_model := model params;
     ro_contents := prompt params;
     ro_generationConfig :=
       {| gc_temperature := default (7 # 10) (temperature params);
          gc_maxOutputTokens := default (2048 # 1) (maxOutputTokens params);
          gc_topK := topK params;
          gc_topP := topP params |};
     ro_tools :=
       if default false (enableGrounding params)
       then Some ["googleSearchRetrieval"] else None |}.

(** What [callGeminiApi] makes of the response once the call has
    resolved: the first candidate and the text are required. *)
Definition structured (response : GenerateContentResponse)
    : Settled GeminiApiResponse :=
  match head (default [] (r_candidates response)) with
  | None =>
      Rejected (Errors.ApiError (Errors.new_ExternalApiError
        "No candidates found in Gemini response"
        (Some (Errors.CodeNum 200)) (Some "Empty candidates array")))
  | Some candidate =>
      if truthy (r_text response)
      then Resolved {| text := default "" (r_text response);
                       finishReason := c_finishReason candidate;
                       safetyRatings := c_safetyRatings candidate |}
      else Rejected (Errors.ApiError (Errors.new_ExternalApiError
             "Could not parse Gemini response - missing text content"
             (Some (Errors.CodeNum 200))
             (Some (String.substring 0 200 (r_json response)))))
  end.

(** The client can be had: it exists already, or the key is there to
    build it. *)
Definition client_available (config : Config) (sdk : Sdk) : bool :=
  genAIClient sdk || truthy (Some (geminiApiKey config)).

End GeminiRequest.

(** ** Further scenarios *)

Module Cases.
Import HttpServer.

Definition environment : gmap string string :=
  <["GEMINI_API_KEY" := "AIza-example"]> (<["PORT" := "8080"]> ∅).

Definition rate_limited : Errors.Value :=
  {| Errors.is_Error := true;
     Errors.code := Some (Errors.CodeStr "RESOURCE_EXHAUSTED");
     Errors.details := Some "quota";
     Errors.msg := Some "Quota exceeded";
     Errors.stack := Some "at generateContent";
     Errors.rendering := "Error: Quota exceeded" |}.

Definition failing (v : Errors.Value) : GeminiClient.Sdk :=
  {| GeminiClient.genAIClient := true;
     GeminiClient.generateContent := fun _ => GeminiClient.Rejected (Errors.Other v) |}.

Definition answer : GeminiClient.GenerateContentResponse :=
  {| GeminiClient.r_text := Some "Hello there";
     GeminiClient.r_candidates :=
       Some [ {| GeminiClient.c_finishReason := Some "STOP";
                 GeminiClient.c_safetyRatings := None |} ];
     GeminiClient.r_json := "{}" |}.

Definition answering : GeminiClient.Sdk :=
  {| GeminiClient.genAIClient := true;
     GeminiClient.generateContent := fun _ => GeminiClient.Resolved answer |}.

(** Only the key is set. *)
Definition minimal_environment : gmap string string :=
  <["GEMINI_API_KEY" := "AIza-example"]> ∅.

(** Numerals followed by other text. *)
Definition suffixed_environment : gmap string string :=
  <["GEMINI_API_KEY" := "AIza-example"]>
    (<["PORT" := "8080/tcp"]> (<["REQUEST_TIMEOUT_MS" := "5000ms"]> ∅)).

Definition loaded (port timeout : Z) : Config.t :=
  {| Config.geminiApiKey := "AIza-example"; Config.port := port;
     Config.requestTimeoutMs := timeout; Config.logLevel := Logger.INFO;
     Config.serverInfo_name := "GeminiMcpServer";
     Config.serverInfo_version := "1.0.0" |}.

(** The metadata of the debug entry [callGeminiApi] writes before a call. *)
Definition initializing : JsObject :=
  [ ("model", VStr "gemini-pro"); ("promptLength", VNum 5);
    ("temperature", VNum (7 # 10)); ("maxOutputTokens", VNum 2048);
    ("enableGrounding", VBool true) ].

(** A response without candidates, and one without text. *)
Definition no_candidates : GeminiClient.GenerateContentResponse :=
  {| GeminiClient.r_text := None; GeminiClient.r_candidates := Some [];
     GeminiClient.r_json := "{}" |}.

Definition replying (r : GeminiClient.GenerateContentResponse) : GeminiClient.Sdk :=
  {| GeminiClient.genAIClient := true;
     GeminiClient.generateContent := fun _ => GeminiClient.Resolved r |}.

(** An error of the library with a code of its own and details. *)
Definition unavailable : Errors.Value :=
  {| Errors.is_Error := true;
     Errors.code := Some (Errors.CodeNum 503);
     Errors.details := Some "backend unavailable";
     Errors.msg := Some "Service unavailable";
     Errors.stack := Some "at generateContent";
     Errors.rendering := "Error: Service unavailable" |}.

(** The rate limit error as another run may raise it: other details,
    another stack, not an [Error] instance. *)
Definition rate_limited_elsewhere : Errors.Value :=
  {| Errors.is_Error := false;
     Errors.code := Some (Errors.CodeStr "RESOURCE_EXHAUSTED");
     Errors.details := Some "per-minute limit of project 42";
     Errors.msg := Some "Quota exceeded";
     Errors.stack := None;
     Errors.rendering := "[object Object]" |}.

(** A request whose session id names a property every object inherits. *)
Definition constructor_request : Request :=
  {| mcp_session_id := Some "constructor"; method := "GET"; body := VUndefined |}.

(** Two sessions, opened in one order and in the other. *)
Definition earlier_first : list RegistryEvent :=
  [ Initialized (Scenario.healthy 1 (Some Scenario.uuid1)) Scenario.uuid1;
    Initialized (Scenario.healthy 2 (Some Scenario.uuid2)) Scenario.uuid2 ].

Definition later_first : list RegistryEvent :=
  [ Initialized (Scenario.healthy 2 (Some Scenario.uuid2)) Scenario.uuid2;
    Initialized (Scenario.healthy 1 (Some Scenario.uuid1)) Scenario.uuid1 ].

(** A transport that takes a request and leaves the response open, as
    for an event stream; and a process with one such session. *)
Definition listening (n : nat) (id : option string) : Transport :=
  {| object_id := n; sessionId := id;
     handleRequest := fun _ res =>
       {| response := res; callbacks := []; rejects := None |};
     close := {| notifies := true; fails := None |} |}.

Definition one_listener : Process :=
  set_transports (<["s1" := listening 1 (Some "s1")]> ∅) start.

(** A transport whose [handleRequest] rejects with [null] before it has
    written anything; and a process with one such session. *)
Definition silent_failure (n : nat) (id : option string) : Transport :=
  {| object_id := n; sessionId := id;
     handleRequest := fun _ res =>
       {| response := res; callbacks := []; rejects := Some (RaisedNullish "null") |};
     close := {| notifies := true; fails := None |} |}.

Definition one_silent_failure : Process :=
  set_transports (<["s1" := silent_failure 1 (Some "s1")]> ∅) start.

(** An SDK whose [connect] fails. *)
Definition disconnected : Sdk :=
  {| isInitializeRequest := Scenario.isInitializeRequest;
     new_transport := Scenario.fresh;
     connect := fun _ => Some (Raised Scenario.boom);
     server_close := None |}.

(** Two sessions whose transports both deregister when closed. *)
Definition two_healthy : Process :=
  set_transports
    (<["s1" := Scenario.healthy 1 (Some "s1")]>
       (<["s2" := Scenario.healthy 2 (Some "s2")]> ∅))
    start.

End Cases.

(** * Properties *)

Import Logger HttpServer.

(** ** The session registry *)

Section Registry.

Implicit Types (t : Transport) (p : Process) (id : string).

Lemma truthy_Some id : truthy (Some id) = true <-> id ≠ "".
Proof.
  unfold truthy. destruct (String.eqb_spec id ""); simpl; split; congruence.
Qed.

Lemma uuid_not_empty id : is_uuid id = true -> id ≠ "".
Proof. intros H ->. discriminate H. Qed.

Lemma uuid_not_inherited id : is_uuid id = true -> inherited id = false.
Proof.
  intros H. destruct (inherited id) eqn:E; [|done].
  unfold inherited in E. apply existsb_exists in E as [name [Hin Heq]].
  apply String.eqb_eq in Heq. subst name.
  simpl in Hin.
  repeat (destruct Hin as [<- | Hin]; [discriminate H|]). destruct Hin.
Qed.

Lemma read_Own (m : gmap string Transport) id t :
  read m id = Own t <-> m !! id = Some t.
Proof.
  unfold read. destruct (m !! id) eqn:E.
  - split; congruence.
  - destruct (inherited id); split; congruence.
Qed.

(** The registry after [onclose]: the entry of the transport's id is
    gone when that id is non-empty, everything else stays. *)
Lemma transports_onclose t p :
  transports (onclose t p) =
    match sessionId t with
    | Some id => if truthy (Some id) then delete id (transports p) else transports p
    | None => transports p
    end.
Proof.
  unfold onclose, and_read. destruct (sessionId t) as [id|]; [|done].
  destruct (truthy (Some id)); [|done].
  unfold read. destruct (transports p !! id) eqn:E; simpl; [done|].
  destruct (inherited id); simpl; rewrite ?delete_id by done; done.
Qed.

Lemma transports_onsessioninitialized t id p :
  transports (onsessioninitialized t id p) = <[id := t]> (transports p).
Proof. done. Qed.

(** C8. Removing a session is idempotent: running a transport's [onclose]
    handler twice leaves the registry as running it once does, and on a
    registry that has no entry for the transport's id the handler changes
    nothing (and raises nothing: it is a total function). *)
Theorem onclose_idempotent t p :
  transports (onclose t (onclose t p)) = transports (onclose t p)
  /\ (forall id, sessionId t = Some id -> transports p !! id = None ->
        transports (onclose t p) = transports p).
Proof.
  split.
  - rewrite !transports_onclose.
    destruct (sessionId t) as [id|]; [|done].
    destruct (truthy (Some id)); [|done].
    apply delete_id, lookup_delete_eq.
  - intros id Hid Hnone. rewrite transports_onclose, Hid.
    destruct (truthy (Some id)); [|done]. by apply delete_id.
Qed.

(** Replaying a history one more event at a time. *)
Lemma replay_snoc history ev :
  replay (history ++ [ev]) = apply_event (replay history) ev.
Proof. unfold replay. by rewrite fold_left_app. Qed.

Lemma library_contract_prefix history ev :
  library_contract (history ++ [ev]) -> library_contract history.
Proof.
  intros [H1 H2 H3]. split.
  - intros t id Hin. apply (H1 t id). set_solver.
  - intros t id Hin. apply (H2 t id). set_solver.
  - intros e1 e2 id Hin1 Hin2. apply (H3 e1 e2 id); set_solver.
Qed.

(** A registered transport that has not closed is found under its id. *)
Lemma registered_lookup before t id after :
  library_contract (before ++ Initialized t id :: after) ->
  Closes t ∉ after ->
  transports (replay (before ++ Initialized t id :: after)) !! id = Some t.
Proof.
  induction after as [|ev after IH] using rev_ind; intros Hc Hnot.
  - rewrite replay_snoc. unfold apply_event.
    rewrite transports_onsessioninitialized. apply lookup_insert_eq.
  - assert (Ht : sessionId t = Some id).
    { apply (announced_id_is_assigned _ Hc t id). set_solver. }
    replace (before ++ Initialized t id :: after ++ [ev])
      with ((before ++ Initialized t id :: after) ++ [ev]) in *
      by (by rewrite <- app_assoc).
    specialize (IH (library_contract_prefix _ _ Hc)).
    rewrite replay_snoc. destruct ev as [t' id' | t']; unfold apply_event.
    + rewrite transports_onsessioninitialized.
      destruct (decide (id' = id)) as [->|Hne].
      * assert (t' = t) as ->; [|apply lookup_insert_eq].
        assert (Ht' : sessionId t' = Some id).
        { apply (announced_id_is_assigned _ Hc t' id). set_solver. }
        apply (ids_are_unique _ Hc (Initialized t' id) (Initialized t id) id);
          [set_solver | set_solver | done | done].
      * rewrite lookup_insert_ne by done. apply IH. set_solver.
    + assert (Hne : t' ≠ t) by (intros ->; set_solver).
      rewrite transports_onclose.
      destruct (sessionId t') as [id'|] eqn:Hid'; [|apply IH; set_solver].
      destruct (truthy (Some id')); [|apply IH; set_solver].
      destruct (decide (id' = id)) as [->|Hne'].
      * exfalso. apply Hne.
        apply (ids_are_unique _ Hc (Closes t') (Initialized t id) id);
          [set_solver | set_solver | done | done].
      * rewrite lookup_delete_ne by done. apply IH. set_solver.
Qed.

(** A transport found under an id was registered for it and has not
    closed since. *)
Lemma lookup_registered history id t :
  library_contract history ->
  transports (replay history) !! id = Some t ->
  registered_and_not_removed history id t.
Proof.
  induction history as [|ev history IH] using rev_ind; intros Hc.
  - intros H. unfold replay in H. simpl in H. by rewrite lookup_empty in H.
  - specialize (IH (library_contract_prefix _ _ Hc)).
    rewrite replay_snoc. destruct ev as [t' id' | t']; unfold apply_event.
    + rewrite transports_onsessioninitialized.
      destruct (decide (id' = id)) as [->|Hne].
      * rewrite lookup_insert_eq. intros [= ->].
        exists history, []. split; [done | set_solver].
      * rewrite lookup_insert_ne by done. intros H.
        destruct (IH H) as (before & after & -> & Hnot).
        exists before, (after ++ [Initialized t' id']). split.
        -- by rewrite <- app_assoc.
        -- rewrite elem_of_app, list_elem_of_singleton. intros [?|?]; [done|congruence].
    + rewrite transports_onclose. intros H.
      assert (Hprev : transports (replay history) !! id = Some t).
      { destruct (sessionId t') as [id'|]; [|done].
        destruct (truthy (Some id')); [|done].
        destruct (decide (id' = id)) as [->|Hne].
        - by rewrite lookup_delete_eq in H.
        - by rewrite lookup_delete_ne in H. }
      destruct (IH Hprev) as (before & after & -> & Hnot).
      exists before, (after ++ [Closes t']). split.
      * by rewrite <- app_assoc.
      * assert (t' ≠ t) as Hne;
          [|rewrite elem_of_app, list_elem_of_singleton;
            intros [?|?]; [done|congruence]].
        intros ->.
        assert (Ht : sessionId t = Some id).
        { apply (announced_id_is_assigned _ Hc t id). set_solver. }
        assert (Hu : is_uuid id = true).
        { apply (announced_id_is_uuid _ Hc t id). set_solver. }
        rewrite Ht in H.
        apply uuid_not_empty, truthy_Some in Hu. rewrite Hu in H.
        by rewrite lookup_delete_eq in H.
Qed.

(** C2. Reading [transports[id]] yields a transport exactly when that
    transport was registered for [id] by [onsessioninitialized] and its
    [onclose] handler has not run since; and an id never maps to two
    transports. The history is one the protocol library can produce. *)
Theorem registry_lookup history id t :
  library_contract history ->
  (read (transports (replay history)) id = Own t
     <-> registered_and_not_removed history id t)
  /\ (forall t', read (transports (replay history)) id = Own t' ->
                 read (transports (replay history)) id = Own t -> t' = t).
Proof.
  intros Hc. split.
  - rewrite read_Own. split.
    + by apply lookup_registered.
    + intros (before & after & -> & Hnot). by apply registered_lookup.
  - intros t' H1 H2. congruence.
Qed.

End Registry.

(** ** The [/mcp] route *)

Section Route.

Variable sdk : Sdk.
Implicit Types (req : Request) (p : Process) (x : Exchange) (t : Transport).

Lemma calls_onclose t p : calls (onclose t p) = calls p.
Proof.
  unfold onclose. destruct (sessionId t); [|done].
  by destruct (truthy_property _).
Qed.

Lemma calls_run_callbacks cbs : forall t p, calls (run_callbacks t cbs p) = calls p.
Proof.
  induction cbs as [|[id|] cbs IH]; intros t p; simpl; [done| |].
  - by rewrite IH.
  - by rewrite IH, calls_onclose.
Qed.

Lemma drop_calls_app (l k : list Call) : drop (length l) (l ++ k) = k.
Proof. by rewrite drop_app_length. Qed.

Lemma and_read_known id (m : gmap string Transport) t :
  id ≠ "" -> m !! id = Some t -> and_read (Some id) m = Own t.
Proof.
  intros Hne Hin. unfold and_read. apply truthy_Some in Hne. rewrite Hne.
  by apply read_Own.
Qed.

Lemma and_read_falsy (sessionId : option string) (m : gmap string Transport) :
  truthy sessionId = false -> and_read sessionId m = Undefined.
Proof.
  unfold and_read. destruct sessionId as [id|]; [|done]. by intros ->.
Qed.

Lemma and_read_unknown id (m : gmap string Transport) :
  m !! id = None -> inherited id = false -> and_read (Some id) m = Undefined.
Proof.
  intros Hnone Hinh. unfold and_read, read. rewrite Hnone, Hinh.
  by destruct (truthy (Some id)).
Qed.

Lemma mcp_catch_calls req (e : Rejection) x :
  calls (proc (mcp_catch req e x).2) = calls (proc x).
Proof.
  destruct e as [e|r]; [|done].
  unfold mcp_catch, mbind, Async_bind, bind, on_process, get_exchange, status_json, ret.
  simpl. destruct (headersSent (res x)) eqn:E; simpl; [done|]. by rewrite E.
Qed.

(** The catch clause writes the 500 payload when the headers are not out
    yet, and leaves the response alone when they are. *)
Lemma mcp_catch_res req (e : JsError) x :
  res (mcp_catch req (Raised e) x).2 =
    if headersSent (res x) then res x
    else internal_server_error (res x).
Proof.
  unfold mcp_catch, mbind, Async_bind, bind, on_process, get_exchange, status_json, ret.
  simpl. destruct (headersSent (res x)) eqn:E; simpl; [done|]. by rewrite E.
Qed.

(** All the catch clause does to the process is to log the error. *)
Lemma mcp_catch_proc req (e : JsError) x :
  proc (mcp_catch req (Raised e) x).2 =
    logger ERROR "Error handling MCP request"
      [ ("error", VStr (message e));
        ("sessionId", of_string (mcp_session_id req)) ] (proc x).
Proof.
  unfold mcp_catch, mbind, Async_bind, bind, on_process, get_exchange, status_json, ret.
  simpl. destruct (headersSent (res x)) eqn:E; simpl; [done|]. by rewrite E.
Qed.

(** On [null] or [undefined] the clause throws at its first step. *)
Lemma mcp_catch_nullish req rendering x :
  mcp_catch req (RaisedNullish rendering) x =
    (Exception (Raised {| message := cannot_read rendering "message";
                          stack := None |}), x).
Proof. done. Qed.

(** Branch 1: the request goes to the transport registered under its id. *)
Lemma serve_existing req p id t :
  mcp_session_id req = Some id -> id ≠ "" -> transports p !! id = Some t ->
  let h := handleRequest t req new_Response in
  let x := {| res := response h;
              proc := run_callbacks t (callbacks h)
                        (called (transport_handleRequest t req) p) |} in
  serve sdk req p =
    match rejects h with
    | None => (Normal tt, x)
    | Some e => mcp_catch req e x
    end.
Proof.
  intros Hid Hne Hin. unfold serve, mcp, try_catch, mcp_try.
  unfold mbind, Async_bind, bind, get_exchange. simpl.
  rewrite Hid, (and_read_known id _ t Hne Hin). simpl.
  by destruct (rejects _).
Qed.

(** Branch 2: a transport is constructed and connected, and the request
    goes to it. *)
Lemma serve_initialization req p :
  truthy (mcp_session_id req) = false -> method req = "POST" ->
  isInitializeRequest sdk (body req) = true ->
  let t := new_transport sdk (length (calls p)) in
  let p1 := called (mcpServer_connect t) (called (new_StreamableHTTPServerTransport t) p) in
  let h := handleRequest t req new_Response in
  let x := {| res := response h;
              proc := run_callbacks t (callbacks h)
                        (called (transport_handleRequest t req) p1) |} in
  serve sdk req p =
    match connect sdk t with
    | Some e => mcp_catch req e {| res := new_Response; proc := p1 |}
    | None =>
        match rejects h with
        | None => (Normal tt, x)
        | Some e => mcp_catch req e x
        end
    end.
Proof.
  intros Hid Hm Hinit. unfold serve, mcp, try_catch, mcp_try.
  unfold mbind, Async_bind, bind, get_exchange. simpl.
  rewrite (and_read_falsy _ _ Hid), Hid, Hm, Hinit. simpl.
  unfold await_connect, mbind, Async_bind, bind, on_process. simpl.
  destruct (connect sdk _); simpl; [done|].
  by destruct (rejects _).
Qed.

(** Branch 3: the request is answered with 400 and reaches no transport. *)
Lemma serve_invalid req p :
  and_read (mcp_session_id req) (transports p) = Undefined ->
  negb (truthy (mcp_session_id req)) && String.eqb (method req) "POST"
    && isInitializeRequest sdk (body req) = false ->
  serve sdk req p =
    (Normal tt,
     {| res := invalid_request;
        proc := logger WARN "Invalid MCP request"
                  [ ("sessionId", of_string (mcp_session_id req));
                    ("method", VStr (method req));
                    ("isInit", VBool (is_init sdk req)) ] p |}).
Proof.
  intros Hread Hinit. unfold serve, mcp, try_catch, mcp_try.
  unfold mbind, Async_bind, bind, get_exchange. simpl.
  rewrite Hread. simpl. by rewrite Hinit.
Qed.

(** A request that carries an id of the generator's form which is not
    registered is rejected, whatever its method and body. *)
Lemma unknown_uuid_is_rejected req p id :
  mcp_session_id req = Some id -> is_uuid id = true -> transports p !! id = None ->
  acts_as reject sdk req p.
Proof.
  intros Hid Hu Hnone. unfold acts_as, new_calls. rewrite serve_invalid.
  - simpl. split; [done|]. split; [|done]. by rewrite drop_all.
  - rewrite Hid. apply and_read_unknown; [done|by apply uuid_not_inherited].
  - rewrite Hid. apply uuid_not_empty, truthy_Some in Hu. by rewrite Hu.
Qed.

(** C1, as the code has it. Every request to [/mcp] meets one of three
    outcomes. (1) A non-empty session id that is a key of the registry:
    the request is handed unchanged to the transport registered under it.
    (2) No session id, or an empty one, with method POST and an
    initialization body: a transport is constructed and connected and the
    request is handed to it. (3) Anything else, where a non-empty id is
    neither a key of the registry nor a name the registry object inherits:
    the answer is 400 with the payload [{error: "Invalid MCP request"}],
    no transport receives the request and the registry is unchanged. *)
Theorem route_outcomes req p :
  (forall id t,
     mcp_session_id req = Some id -> id ≠ "" -> transports p !! id = Some t ->
     acts_as (continue_session t) sdk req p)
  /\ (truthy (mcp_session_id req) = false -> method req = "POST" ->
      isInitializeRequest sdk (body req) = true ->
      acts_as begin_session sdk req p)
  /\ ((forall id, mcp_session_id req = Some id -> id ≠ "" ->
         transports p !! id = None /\ inherited id = false) ->
      (truthy (mcp_session_id req) = false ->
         ~ (method req = "POST" /\ isInitializeRequest sdk (body req) = true)) ->
      acts_as reject sdk req p).
Proof.
  split; [|split].
  - intros id t Hid Hne Hin. unfold acts_as, new_calls.
    rewrite (serve_existing req p id t Hid Hne Hin).
    destruct (rejects _);
      rewrite ?mcp_catch_calls; simpl;
      rewrite calls_run_callbacks; simpl; apply drop_calls_app.
  - intros Hid Hm Hinit. unfold acts_as, new_calls.
    rewrite (serve_initialization req p Hid Hm Hinit).
    destruct (connect sdk _); [|destruct (rejects _)];
      rewrite ?mcp_catch_calls; simpl;
      rewrite ?calls_run_callbacks; simpl;
      rewrite <- ?app_assoc; apply drop_calls_app.
  - intros Hunknown Hnoinit. unfold acts_as, new_calls.
    rewrite serve_invalid.
    + simpl. split; [done|]. split; [|done].
      by rewrite drop_all.
    + destruct (mcp_session_id req) as [id|] eqn:Hid; [|done].
      destruct (truthy (Some id)) eqn:Ht.
      * apply truthy_Some in Ht. destruct (Hunknown id eq_refl Ht).
        by apply and_read_unknown.
      * by apply and_read_falsy.
    + destruct (truthy (mcp_session_id req)) eqn:Ht; [done|]. simpl.
      destruct (String.eqb_spec (method req) "POST") as [Hm|]; [|done]. simpl.
      destruct (isInitializeRequest sdk (body req)) eqn:Hinit; [|done].
      exfalso. by apply (Hnoinit eq_refl).
Qed.


End Route.

(** ** Shutdown of the HTTP server *)

Section Shutdown.

Variable sdk : Sdk.
Implicit Types (p q : Process) (t : Transport) (id : string).

Lemma onclose_exited t q : exited (onclose t q) = exited q.
Proof.
  unfold onclose. destruct (sessionId t); [|done]. by destruct (truthy_property _).
Qed.

Lemma onclose_tasks t q : tasks (onclose t q) = tasks q.
Proof.
  unfold onclose. destruct (sessionId t); [|done]. by destruct (truthy_property _).
Qed.


Lemma onclose_lookup_other t id id' q :
  sessionId t = Some id -> id' ≠ id ->
  transports (onclose t q) !! id' = transports q !! id'.
Proof.
  intros Ht Hne. rewrite transports_onclose, Ht.
  destruct (truthy (Some id)); [|done]. by rewrite lookup_delete_ne.
Qed.


Lemma call_close_exited id t q : exited (call_close id t q) = exited q.
Proof. unfold call_close. destruct (notifies _); [by rewrite onclose_exited|done]. Qed.

Lemma call_close_tasks id t q : tasks (call_close id t q) = tasks q.
Proof. unfold call_close. destruct (notifies _); [by rewrite onclose_tasks|done]. Qed.






Lemma run_cons a turns q : run sdk (a :: turns) q = run sdk turns (turn sdk q a).
Proof. done. Qed.






Lemma onclose_set_tasks t ts q :
  onclose t (set_tasks ts q) = set_tasks ts (onclose t q).
Proof.
  unfold onclose. destruct (sessionId t); [|done]. simpl.
  by destruct (truthy_property _).
Qed.

Lemma call_close_set_tasks id t ts q :
  call_close id t (set_tasks ts q) = set_tasks ts (call_close id t q).
Proof.
  unfold call_close. destruct (notifies _); [|done].
  exact (onclose_set_tasks t ts (called (transport_close id t) q)).
Qed.

Lemma close_transports_set_tasks keys ts q :
  close_transports sdk keys (set_tasks ts q) =
    (set_tasks ts (close_transports sdk keys q).1, (close_transports sdk keys q).2).
Proof.
  induction keys as [|id keys IH]; [done|]. simpl.
  destruct (transports q !! id); [|done]. simpl. by rewrite call_close_set_tasks.
Qed.

Lemma close_transports_tasks keys q :
  tasks (close_transports sdk keys q).1 = tasks q.
Proof.
  induction keys as [|id keys IH]; [done|]. simpl.
  destruct (transports q !! id); [|done]. simpl. apply call_close_tasks.
Qed.

(** Entering [handleShutdown] starts the loop as a new task. *)
Lemma handleShutdown_advance p :
  handleShutdown sdk p =
    advance sdk (length (tasks p)) (for_in p)
      (set_tasks (tasks p ++ [Completed])
         (logger INFO "Shutting down HTTP server..." [] p)).
Proof.
  unfold handleShutdown, advance.
  change (for_in (logger INFO "Shutting down HTTP server..." [] p)) with (for_in p).
  set (p0 := logger INFO _ [] p).
  rewrite close_transports_set_tasks.
  pose proof (close_transports_tasks (for_in p) p0) as Ht.
  destruct (close_transports sdk (for_in p) p0) as [q' task].
  simpl in *. rewrite Ht. unfold set_tasks. simpl. f_equal.
  rewrite insert_app_r_alt, Nat.sub_diag by done. done.
Qed.

Lemma elem_of_keys (m : gmap string Transport) id :
  id ∈ (map_to_list m).*1 <-> is_Some (m !! id).
Proof.
  rewrite list_elem_of_fmap. split.
  - intros ([id' t] & -> & Hin). apply elem_of_map_to_list in Hin. by exists t.
  - intros [t Ht]. exists (id, t). split; [done|]. by apply elem_of_map_to_list.
Qed.












(** The invariant the theorem asks for holds of every registry the
    callbacks can build. *)
Lemma replay_registered_under_own_id history :
  library_contract history -> registered_under_own_id (transports (replay history)).
Proof.
  intros Hc id t H. apply (lookup_registered _ _ _ Hc) in H as (before & after & -> & _).
  apply (announced_id_is_assigned _ Hc t id).
  apply elem_of_app. right. apply elem_of_cons. by left.
Qed.

Lemma onclose_logged_text t q :
  exists l, logged (onclose t q) = logged q ++ l
    /\ forall c, c ∈ l -> text c = "Session closed".
Proof.
  unfold onclose. destruct (sessionId t) as [id|].
  - destruct (truthy_property _).
    + eexists. split; [done|]. intros c Hin. apply list_elem_of_singleton in Hin.
      by subst c.
    + exists []. split; [by rewrite app_nil_r|]. intros c Hin.
      by apply elem_of_nil in Hin.
  - exists []. split; [by rewrite app_nil_r|]. intros c Hin.
    by apply elem_of_nil in Hin.
Qed.

Lemma close_transports_logged keys q :
  exists l, logged (close_transports sdk keys q).1 = logged q ++ l
    /\ forall c, c ∈ l -> text c = "Session closed".
Proof.
  induction keys as [|id keys IH]; simpl.
  - exists []. split; [by rewrite app_nil_r|]. intros c Hin.
    by apply elem_of_nil in Hin.
  - destruct (transports q !! id) as [t|]; [|done]. simpl.
    unfold call_close. destruct (notifies _).
    + apply (onclose_logged_text t (called (transport_close id t) q)).
    + exists []. split; [by rewrite app_nil_r|]. intros c Hin.
      by apply elem_of_nil in Hin.
Qed.

Lemma no_entries_among (l : list LogCall) :
  (forall c, c ∈ l -> text c = "Session closed") ->
  filter (fun c => text c = "Shutting down HTTP server...") l = [].
Proof.
  induction l as [|c l IH]; intros H; [done|].
  rewrite filter_cons_False.
  - apply IH. intros c' Hin. apply H, elem_of_cons. by right.
  - rewrite (H c) by (apply elem_of_cons; by left). discriminate.
Qed.

(** Every call of [handleShutdown] enters the sequence: there is no
    guard. *)
Lemma handleShutdown_enters p :
  shutdown_entries (handleShutdown sdk p) = S (shutdown_entries p)
  /\ length (tasks (handleShutdown sdk p)) = S (length (tasks p)).
Proof.
  unfold handleShutdown.
  change (for_in (logger INFO "Shutting down HTTP server..." [] p)) with (for_in p).
  set (p0 := logger INFO _ [] p).
  destruct (close_transports_logged (for_in p) p0) as (l & Hl & Htext).
  pose proof (close_transports_tasks (for_in p) p0) as Ht.
  destruct (close_transports sdk (for_in p) p0) as [q' task].
  simpl in *. split.
  - unfold shutdown_entries. simpl. rewrite Hl, !filter_app, (no_entries_among l Htext).
    rewrite app_nil_r, length_app. simpl. lia.
  - rewrite Ht, length_app. simpl. lia.
Qed.

(** C6, as the code has it. The shutdown sequence has no guard against
    re-entry: while the process has not exited, every SIGINT, SIGTERM or
    uncaught exception enters the sequence once more and adds a run,
    whether or not an earlier run is still suspended at an [await]; once
    a run has reached [process.exit], no trigger enters it any more. *)
Theorem every_trigger_enters_shutdown ev p :
  (forall reason, ev ≠ unhandledRejection reason) ->
  (exited p = None ->
     shutdown_entries (turn sdk p (Emit ev)) = S (shutdown_entries p)
     /\ length (tasks (turn sdk p (Emit ev))) = S (length (tasks p)))
  /\ (is_Some (exited p) -> turn sdk p (Emit ev) = p).
Proof.
  intros Hev. split.
  - intros Hrun. unfold turn. rewrite Hrun.
    destruct ev as [| |error|reason]; simpl.
    + apply handleShutdown_enters.
    + apply handleShutdown_enters.
    + destruct (handleShutdown_enters
                  (logger ERROR "Uncaught exception"
                     [("error", VStr (message error));
                      ("stack", of_string (stack error))] p)) as [H1 H2].
      split; [|done]. rewrite H1. f_equal.
      unfold shutdown_entries. simpl. rewrite filter_app, length_app.
      rewrite filter_cons_False by discriminate. simpl. lia.
    + by destruct (Hev reason).
  - intros [code H]. unfold turn. by rewrite H.
Qed.

(** C5 fails in the HTTP entry point: its listener for unhandled
    rejections writes a log entry and returns. It does not call
    [handleShutdown]: no run is added, no transport or server is closed
    and the process does not exit. The listener of the stdio entry point
    for the same event does run its shutdown sequence. *)
Theorem http_unhandledRejection_only_logs reason p (server_close : option JsError)
    (q : StdioServer.Process) :
  setupGracefulShutdown sdk (unhandledRejection reason) p
    = logger ERROR "Unhandled rejection" [("reason", reason)] p
  /\ shutdown_entries (setupGracefulShutdown sdk (unhandledRejection reason) p)
      = shutdown_entries p
  /\ calls (setupGracefulShutdown sdk (unhandledRejection reason) p) = calls p
  /\ tasks (setupGracefulShutdown sdk (unhandledRejection reason) p) = tasks p
  /\ exited (setupGracefulShutdown sdk (unhandledRejection reason) p) = exited p
  /\ StdioServer.setupGracefulShutdown server_close (unhandledRejection reason) q
      = StdioServer.handleShutdown server_close "unhandledRejection"
          (StdioServer.logger ERROR "Unhandled rejection" [("reason", reason)] q).
Proof.
  repeat split.
  unfold shutdown_entries. simpl. rewrite filter_app.
  rewrite filter_cons_False by discriminate. simpl. by rewrite app_nil_r.
Qed.

End Shutdown.



(** C6, as the specification states it, fails: a second signal that
    arrives while the first run waits for a transport to close enters the
    sequence again. *)
Lemma second_signal_reenters_shutdown :
  ~ enters_shutdown_at_most_once Scenario.sdk [Emit SIGINT; Emit SIGINT]
      Scenario.two_sessions.
Proof.
  unfold enters_shutdown_at_most_once.
  assert (shutdown_entries (run Scenario.sdk [Emit SIGINT; Emit SIGINT]
                              Scenario.two_sessions) = 2) as -> by reflexivity.
  assert (shutdown_entries Scenario.two_sessions = 0) as -> by reflexivity.
  lia.
Qed.

Lemma every_trigger_enters_shutdown_witness :
  shutdown_entries (turn Scenario.sdk (handleShutdown Scenario.sdk Scenario.two_sessions)
                      (Emit SIGTERM))
    = S (shutdown_entries (handleShutdown Scenario.sdk Scenario.two_sessions))
  /\ turn Scenario.sdk (shutdown_alone Scenario.sdk Scenario.two_sessions) (Emit SIGINT)
     = shutdown_alone Scenario.sdk Scenario.two_sessions.
Proof.
  destruct (every_trigger_enters_shutdown Scenario.sdk SIGTERM
              (handleShutdown Scenario.sdk Scenario.two_sessions)) as [Hrunning _];
    [discriminate|].
  destruct (every_trigger_enters_shutdown Scenario.sdk SIGINT
              (shutdown_alone Scenario.sdk Scenario.two_sessions)) as [_ Hexited];
    [discriminate|].
  split.
  - apply Hrunning. reflexivity.
  - apply Hexited. exists 0%Z. reflexivity.
Defined.

(** C1, as the specification states it, fails: an initialization request
    whose session header is present but empty carries an id the registry
    does not know, so the specification rejects it; the route treats the
    empty id as no id and begins a session. *)
Lemma empty_session_id_begins_session :
  spec_route Scenario.sdk Scenario.initialize_with_empty_id (transports start) = reject
  /\ ~ follows_spec_route Scenario.sdk Scenario.initialize_with_empty_id start
  /\ acts_as begin_session Scenario.sdk Scenario.initialize_with_empty_id start.
Proof.
  split; [reflexivity|]. split.
  - intros [H _]. discriminate H.
  - reflexivity.
Qed.

(** End to end: an initialization POST without a session header
    registers the transport under the id it announces, and a later
    request carrying that id goes to the same transport. *)
Example session_begun_then_continued :
  let t := with_sessionId Scenario.uuid1 (Scenario.fresh 0) in
  let p := proc (serve Scenario.sdk Scenario.initialize_without_id start).2 in
  transports p !! Scenario.uuid1 = Some t
  /\ acts_as (continue_session t) Scenario.sdk (Scenario.list_tools Scenario.uuid1) p.
Proof. split; reflexivity. Qed.

Lemma route_outcomes_witness :
  acts_as (continue_session (Scenario.healthy 2 (Some "s2")))
    Scenario.sdk (Scenario.list_tools "s2") Scenario.two_sessions
  /\ acts_as begin_session Scenario.sdk Scenario.initialize_without_id
       Scenario.two_sessions
  /\ acts_as reject Scenario.sdk Scenario.initialize_with_unknown_id
       Scenario.two_sessions.
Proof.
  split; [|split].
  - apply (proj1 (route_outcomes Scenario.sdk (Scenario.list_tools "s2")
                    Scenario.two_sessions) "s2");
      [reflexivity | discriminate | reflexivity].
  - apply (proj1 (proj2 (route_outcomes Scenario.sdk Scenario.initialize_without_id
                           Scenario.two_sessions))); reflexivity.
  - apply (proj2 (proj2 (route_outcomes Scenario.sdk
                           Scenario.initialize_with_unknown_id
                           Scenario.two_sessions))).
    + intros id [= <-] _. split; reflexivity.
    + intros H. discriminate H.
Defined.


Lemma scenario_history_contract : library_contract Scenario.history.
Proof.
  unfold Scenario.history. split.
  - intros t id H. rewrite !elem_of_cons, elem_of_nil in H.
    destruct H as [[= -> ->]|[[= -> ->]|[[=]|[]]]]; reflexivity.
  - intros t id H. rewrite !elem_of_cons, elem_of_nil in H.
    destruct H as [[= -> ->]|[[= -> ->]|[[=]|[]]]]; reflexivity.
  - intros e1 e2 id H1 H2. rewrite !elem_of_cons, elem_of_nil in H1, H2.
    destruct H1 as [->|[->|[->|[]]]], H2 as [->|[->|[->|[]]]];
      simpl; intros [= <-] [=]; reflexivity.
Defined.

Lemma registry_lookup_witness :
  read (transports (replay Scenario.history)) Scenario.uuid2
    = Own (Scenario.healthy 2 (Some Scenario.uuid2))
  /\ ~ registered_and_not_removed Scenario.history Scenario.uuid1
         (Scenario.healthy 1 (Some Scenario.uuid1)).
Proof.
  split.
  - apply (proj1 (registry_lookup Scenario.history Scenario.uuid2
                    (Scenario.healthy 2 (Some Scenario.uuid2))
                    scenario_history_contract)).
    exists [Initialized (Scenario.healthy 1 (Some Scenario.uuid1)) Scenario.uuid1],
           [Closes (Scenario.healthy 1 (Some Scenario.uuid1))].
    split; [reflexivity|].
    rewrite list_elem_of_singleton. intros [=].
  - intros H.
    apply (proj1 (registry_lookup Scenario.history Scenario.uuid1
                    (Scenario.healthy 1 (Some Scenario.uuid1))
                    scenario_history_contract)) in H.
    discriminate H.
Defined.

Lemma onclose_idempotent_witness :
  transports (onclose (Scenario.healthy 2 (Some "s2"))
                (onclose (Scenario.healthy 2 (Some "s2")) Scenario.two_sessions))
    = transports (onclose (Scenario.healthy 2 (Some "s2")) Scenario.two_sessions)
  /\ transports (onclose (Scenario.healthy 3 (Some "s3")) Scenario.two_sessions)
       = transports Scenario.two_sessions.
Proof.
  split.
  - apply (proj1 (onclose_idempotent _ _)).
  - apply (proj2 (onclose_idempotent (Scenario.healthy 3 (Some "s3"))
                    Scenario.two_sessions) "s3"); reflexivity.
Defined.

(** ** Log redaction *)

Section Redaction.

Import Logger.

Implicit Types (obj meta : JsObject) (key k : string) (v : JsValue).

Lemma startsWith_mentions c sub : forall s,
  startsWith s sub = true -> mentions c sub = true -> mentions c s = true.
Proof.
  induction sub as [|a sub IH]; intros s Hp Hm; [discriminate Hm|].
  destruct s as [|b s]; [discriminate Hp|]. simpl in *.
  apply andb_true_iff in Hp as [Hab Hp]. apply Ascii.eqb_eq in Hab as ->.
  apply orb_true_iff in Hm as [Hm|Hm]; apply orb_true_iff; [by left|right].
  by apply IH.
Qed.

Lemma includes_mentions c sub s :
  includes s sub = true -> mentions c sub = true -> mentions c s = true.
Proof.
  intros Hi Hm. induction s as [|b s IH]; simpl in Hi.
  - apply orb_true_iff in Hi as [Hi|Hi]; [|discriminate Hi].
    by apply (startsWith_mentions c sub).
  - apply orb_true_iff in Hi as [Hi|Hi].
    + by apply (startsWith_mentions c sub).
    + simpl. apply orb_true_iff. right. by apply IH.
Qed.

Lemma lower_ascii_not_K c : Ascii.eqb "K" (lower_ascii c) = false.
Proof.
  destruct c as [[] [] [] [] [] [] [] []]; reflexivity.
Qed.

Lemma toLowerCase_two a b rest :
  toLowerCase (String a (String b rest)) =
    if byte 196 a && byte 176 b then
      String "i" (String (Ascii.ascii_of_N 204)
                    (String (Ascii.ascii_of_N 135) (toLowerCase rest)))
    else
      match rest with
      | EmptyString => String (lower_ascii a) (toLowerCase (String b rest))
      | String c rest' =>
          if byte 226 a && byte 132 b && byte 170 c
          then String "k" (toLowerCase rest')
          else String (lower_ascii a) (toLowerCase (String b rest))
      end.
Proof. reflexivity. Qed.

Lemma mentions_cons c a s :
  mentions c (String a s) = Ascii.eqb c a || mentions c s.
Proof. reflexivity. Qed.

Lemma toLowerCase_no_K_bounded n : forall s,
  String.length s <= n -> mentions "K" (toLowerCase s) = false.
Proof.
  induction n as [|n IH]; intros s Hlen.
  - destruct s; [done|simpl in Hlen; lia].
  - destruct s as [|a rest]; [done|].
    assert (H1 : mentions "K" (toLowerCase rest) = false)
      by (apply IH; simpl in Hlen; lia).
    destruct rest as [|b rest2].
    + change (toLowerCase (String a "")) with (String (lower_ascii a) "").
      by rewrite mentions_cons, lower_ascii_not_K.
    + assert (H2 : mentions "K" (toLowerCase rest2) = false)
        by (apply IH; simpl in Hlen; lia).
      rewrite toLowerCase_two. destruct (byte 196 a && byte 176 b).
      * by rewrite !mentions_cons, H2.
      * destruct rest2 as [|c rest3].
        -- by rewrite mentions_cons, lower_ascii_not_K, H1.
        -- assert (H3 : mentions "K" (toLowerCase rest3) = false)
             by (apply IH; simpl in Hlen; lia).
           destruct (byte 226 a && byte 132 b && byte 170 c).
           ++ by rewrite mentions_cons, H3.
           ++ by rewrite mentions_cons, lower_ascii_not_K, H1.
Qed.

Lemma toLowerCase_no_K s : mentions "K" (toLowerCase s) = false.
Proof. by apply (toLowerCase_no_K_bounded (String.length s)). Qed.

(** The entry [apiKey] of [sensitiveKeys] never matches a lowercased name. *)
Lemma includes_apiKey key : includes (toLowerCase key) "apiKey" = false.
Proof.
  destruct (includes (toLowerCase key) "apiKey") eqn:E; [|done].
  apply (includes_mentions "K") in E; [|done].
  by rewrite toLowerCase_no_K in E.
Qed.

Lemma startsWith_app sub : forall s,
  startsWith s sub = true -> exists rest, s = String.append sub rest.
Proof.
  induction sub as [|a sub IH]; intros s H; [by exists s|].
  destruct s as [|b s]; [discriminate H|].
  cbn [startsWith] in H. apply andb_true_iff in H as [Hab H].
  apply Ascii.eqb_eq in Hab as ->. destruct (IH s H) as [rest ->]. by exists rest.
Qed.

Lemma startsWith_apikey_includes_key s :
  startsWith s "apikey" = true -> includes s "key" = true.
Proof.
  intros H. apply startsWith_app in H as [rest ->]. destruct rest; reflexivity.
Qed.

(** A name that contains [apikey] contains [key]. *)
Lemma includes_apikey_key s :
  includes s "apikey" = true -> includes s "key" = true.
Proof.
  induction s as [|c s IH]; intros H.
  - discriminate H.
  - change (includes (String c s) "apikey")
      with (startsWith (String c s) "apikey" || includes s "apikey") in H.
    apply orb_true_iff in H as [H|H].
    + by apply startsWith_apikey_includes_key.
    + change (includes (String c s) "key")
        with (startsWith (String c s) "key" || includes s "key").
      rewrite (IH H). apply orb_true_r.
Qed.

(** The code's list and the specification's list select the same names. *)
Lemma is_sensitive_spec key : is_sensitive key = spec_sensitive key.
Proof.
  unfold is_sensitive, spec_sensitive. simpl. rewrite includes_apiKey.
  destruct (includes (toLowerCase key) "apikey") eqn:E; [|done].
  rewrite (includes_apikey_key _ E). simpl. by rewrite !orb_true_r.
Qed.

Lemma get_assign obj k v key :
  get (assign obj k v) key = if String.eqb k key then v else get obj key.
Proof.
  induction obj as [|[k' x] obj IH]; simpl.
  - done.
  - destruct (String.eqb_spec k' k) as [->|Hne]; simpl.
    + by destruct (String.eqb k key).
    + rewrite IH. destruct (String.eqb_spec k' key) as [->|]; [|done].
      destruct (String.eqb_spec k key); [congruence|done].
Qed.

Lemma keys_assign obj k v : has obj k = true -> keys (assign obj k v) = keys obj.
Proof.
  induction obj as [|[k' x] obj IH]; simpl; [done|].
  destruct (String.eqb k' k); simpl; [done|]. intros H. by rewrite (IH H).
Qed.

Lemma has_keys obj key : has obj key = existsb (fun k => String.eqb k key) (keys obj).
Proof. induction obj as [|[k x] obj IH]; simpl; [done|]. by rewrite IH. Qed.

(** The loop over the keys: the invariant. *)
Lemma redact_loop ks : forall obj key,
  (forall k, k ∈ ks -> has obj k = true) ->
  keys (fold_left redact ks obj) = keys obj
  /\ get (fold_left redact ks obj) key =
       if is_sensitive key && existsb (fun k => String.eqb k key) ks
       then REDACTED else get obj key.
Proof.
  induction ks as [|k ks IH]; intros obj key Hhas; simpl.
  - by rewrite andb_false_r.
  - assert (Hk : has obj k = true) by (apply Hhas, elem_of_cons; by left).
    assert (Hkeys : keys (redact obj k) = keys obj).
    { unfold redact. destruct (is_sensitive k); [by apply keys_assign|done]. }
    destruct (IH (redact obj k) key) as [IH1 IH2].
    { intros k' Hin. rewrite has_keys, Hkeys, <- has_keys.
      apply Hhas, elem_of_cons. by right. }
    split; [by rewrite IH1|]. rewrite IH2.
    unfold redact. destruct (String.eqb_spec k key) as [->|Hne]; simpl.
    + destruct (is_sensitive key) eqn:E; simpl.
      * destruct (existsb _ ks); [done|]. by rewrite get_assign, String.eqb_refl.
      * done.
    + destruct (is_sensitive key && existsb _ ks); [done|].
      destruct (is_sensitive k); [|done]. rewrite get_assign.
      by destruct (String.eqb_spec k key).
Qed.

(** C10. Redaction is shallow. The sanitized object has the keys of the
    metadata object; under a key whose lowercased name contains
    [api_key], [apikey], [key], [password], [secret] or [token] it holds
    [[REDACTED]]; under every other key it holds the value of the
    metadata object, whatever that value is, nested objects included. *)
Theorem sanitizeMetadata_shallow meta key :
  keys (sanitizeMetadata (Some meta)) = keys meta
  /\ get (sanitizeMetadata (Some meta)) key =
       if spec_sensitive key && has meta key then REDACTED else get meta key.
Proof.
  unfold sanitizeMetadata.
  destruct (redact_loop (keys meta) meta key) as [H1 H2].
  - intros k Hin. rewrite has_keys. apply existsb_exists. exists k.
    split; [by apply list_elem_of_In|apply String.eqb_refl].
  - split; [done|]. by rewrite H2, is_sensitive_spec, has_keys.
Qed.

End Redaction.

Lemma sanitizeMetadata_shallow_witness :
  get (Logger.sanitizeMetadata (Some Scenario.metadata)) "request"
    = VObj [("password", VStr "hunter2"); ("token", VStr "t0k3n")]
  /\ get (Logger.sanitizeMetadata (Some Scenario.metadata)) "AuthToken" = Logger.REDACTED
  /\ get (Logger.sanitizeMetadata (Some Scenario.metadata)) "apiKey" = Logger.REDACTED
  /\ get (Logger.sanitizeMetadata (Some Scenario.metadata)) "sessionId" = VStr "s1".
Proof.
  split; [|split; [|split]].
  - exact (proj2 (sanitizeMetadata_shallow Scenario.metadata "request")).
  - exact (proj2 (sanitizeMetadata_shallow Scenario.metadata "AuthToken")).
  - exact (proj2 (sanitizeMetadata_shallow Scenario.metadata "apiKey")).
  - exact (proj2 (sanitizeMetadata_shallow Scenario.metadata "sessionId")).
Defined.

(** ** The tool boundary *)

Section Tool.

Import Errors GeminiClient GeminiTool.

Variable config : Config.
Variable sdk : Sdk.

(** Whatever was thrown inside [callGeminiApi], what leaves it is an
    error object. *)
Lemma callGeminiApi_catch_not_nullish error rendering :
  callGeminiApi_catch config error ≠ Nullish rendering.
Proof.
  destruct error as [r|e|v|v c]; simpl; [done|done| |done].
  repeat (match goal with |- context [if ?b then _ else _] => destruct b end);
    discriminate.
Qed.

(** And it is one that [JSON.stringify] can write. *)
Lemma callGeminiApi_catch_writable error v complaint :
  callGeminiApi_catch config error ≠ Unserializable v complaint.
Proof.
  destruct error as [r|e|v'|v' c]; simpl; [done|done| |done].
  repeat (match goal with |- context [if ?b then _ else _] => destruct b end);
    discriminate.
Qed.

Lemma callGeminiApi_rejects_not_nullish params rendering :
  callGeminiApi config sdk params ≠ Rejected (Nullish rendering).
Proof.
  unfold callGeminiApi. destruct (callGeminiApi_try config sdk params); [done|].
  intros [= H]. by apply callGeminiApi_catch_not_nullish in H.
Qed.

Lemma callGeminiApi_rejects_writable params v complaint :
  callGeminiApi config sdk params ≠ Rejected (Unserializable v complaint).
Proof.
  unfold callGeminiApi. destruct (callGeminiApi_try config sdk params); [done|].
  intros [= H]. by apply callGeminiApi_catch_writable in H.
Qed.

(** A call that runs into the deadline is rejected with the 408 error. *)
Lemma callGeminiApi_deadline params v :
  genAIClient sdk = true \/ geminiApiKey config ≠ "" ->
  (forall request, generateContent sdk request = Rejected (Other v)) ->
  code v = Some (CodeStr "DEADLINE_EXCEEDED") ->
  callGeminiApi config sdk params =
    Rejected (ApiError (new_ExternalApiError
      ("Request timed out after " ++ decimal (requestTimeoutMs config) ++ "ms")
      (Some (CodeNum 408)) (Some "Request took too long to complete"))).
Proof.
  intros Hclient Hsdk Hcode. unfold callGeminiApi, callGeminiApi_try.
  assert (getGenAIClient config sdk = Resolved tt) as ->.
  { unfold getGenAIClient. destruct Hclient as [->|Hkey]; [done|].
    apply truthy_Some in Hkey. rewrite Hkey. by rewrite andb_false_r. }
  rewrite Hsdk. simpl. unfold code_is. by rewrite Hcode.
Qed.

(** C4, as the code has it. A failed call never escapes the tool
    callback: the callback returns a result whose [isError] is [true] and
    whose content is one text item, the formatted error behind the
    prefix [Error interacting with Gemini API: ]. For an outbound
    timeout under the default 30000 ms the text is
    [Error interacting with Gemini API: API request failed (status 408):
    External API error: Request timed out after 30000ms]. *)
Theorem tool_failure_is_a_result args :
  (exists result, callGemini config sdk args = Returns result
     /\ forall error, callGeminiApi config sdk (api_params args) = Rejected error ->
          isError result = Some true
          /\ content result =
               [text_item ("Error interacting with Gemini API: "
                           ++ formatErrorForUser error)])
  /\ (forall v,
        genAIClient sdk = true \/ geminiApiKey config ≠ "" ->
        (forall request, generateContent sdk request = Rejected (Other v)) ->
        code v = Some (CodeStr "DEADLINE_EXCEEDED") ->
        requestTimeoutMs config = 30000%N ->
        callGemini config sdk args =
          Returns {| content :=
                       [text_item "Error interacting with Gemini API: API request failed (status 408): External API error: Request timed out after 30000ms"];
                     isError := Some true |}).
Proof.
  split.
  - unfold callGemini.
    pose proof (callGeminiApi_rejects_not_nullish (api_params args)) as Hnn.
    pose proof (callGeminiApi_rejects_writable (api_params args)) as Hw.
    destruct (callGeminiApi config sdk (api_params args)) as [response|error].
    + eexists. split; [done|]. intros error [=].
    + destruct error as [r|e|v|v c].
      * by destruct (Hnn r).
      * eexists. split; [done|]. by intros error [= <-].
      * eexists. split; [done|]. by intros error [= <-].
      * by destruct (Hw v c).
  - intros v Hclient Hsdk Hcode Htimeout. unfold callGemini.
    rewrite (callGeminiApi_deadline (api_params args) v Hclient Hsdk Hcode).
    by rewrite Htimeout.
Qed.

End Tool.

(** C4, as the specification states it, fails: the text of the timeout
    result carries the prefix the [ExternalApiError] constructor puts on
    every message. *)
Lemma timeout_text_keeps_error_prefix :
  GeminiTool.callGemini Scenario.config Scenario.timing_out Scenario.args
    ≠ GeminiTool.Returns GeminiTool.spec_timeout_result.
Proof. discriminate. Qed.

Lemma tool_failure_is_a_result_witness :
  GeminiTool.callGemini Scenario.config Scenario.timing_out Scenario.args =
    GeminiTool.Returns
      {| GeminiTool.content :=
           [GeminiTool.text_item "Error interacting with Gemini API: API request failed (status 408): External API error: Request timed out after 30000ms"];
         GeminiTool.isError := Some true |}.
Proof.
  apply (proj2 (tool_failure_is_a_result Scenario.config Scenario.timing_out
                  Scenario.args) Scenario.deadline_exceeded).
  - right. discriminate.
  - reflexivity.
  - reflexivity.
  - reflexivity.
Defined.

(** ** Tool parameter validation *)

Section Validation.

Import GeminiClient GeminiTool.

Implicit Types (fields : JsObject) (q : Q) (path : string) (v : JsValue).

Lemma run_checks_nil {A} path (checks : list (Check A)) (a : A) :
  run_checks path checks a = [] <-> forallb (fun c => test c a) checks = true.
Proof.
  unfold run_checks. induction checks as [|c checks IH]; simpl; [done|].
  destruct (test c a); simpl; [done|]. split; discriminate.
Qed.

(** A checked value is accepted exactly when every check passes. *)
Lemma checked_inr {A} path (checks : list (Check A)) (a a' : A) :
  checked path checks a = inr a' <->
  forallb (fun c => test c a) checks = true /\ a' = a.
Proof.
  unfold checked. destruct (run_checks path checks a) eqn:E.
  - apply run_checks_nil in E. split; [by intros [= <-]|by intros [_ ->]].
  - split; [discriminate|]. intros [H _].
    rewrite <- (run_checks_nil path) in H. congruence.
Qed.

(** A number is accepted as [maxOutputTokens] exactly when it is an
    integer between 1 and 8192. *)
Lemma maxOutputTokens_checks q :
  isInteger q && (0 <? Qnum q)%Z && Qle_bool q (8192 # 1) = true <->
  exists n : Z, (q == inject_Z n)%Q /\ (1 <= n <= 8192)%Z.
Proof.
  unfold isInteger. rewrite !andb_true_iff, Z.eqb_eq, Z.ltb_lt, Qle_bool_iff.
  destruct q as [a d]. unfold Qle, Qeq, inject_Z. simpl. split.
  - intros [[Hint Hpos] Hmax]. exists (a / Z.pos d)%Z.
    assert (Ha : (a = Z.pos d * (a / Z.pos d))%Z) by (apply Z.div_exact; lia).
    split; [lia|]. nia.
  - intros (n & Hq & Hn). rewrite Z.mul_1_r in Hq. subst a.
    split; [split|]; [apply Z.mod_mul; lia | nia | nia].
Qed.

Lemma temperature_checks q :
  Qle_bool 0%Q q && Qle_bool q 1%Q = true <-> (0 <= q /\ q <= 1)%Q.
Proof. by rewrite andb_true_iff, !Qle_bool_iff. Qed.

(** What an accepted argument object says about each of its fields. *)
Lemma geminiToolInputSchema_inr fields input :
  geminiToolInputSchema (VObj fields) = inr input ->
  schema_model "model" (get fields "model") = inr (model input)
  /\ schema_prompt "prompt" (get fields "prompt") = inr (prompt input)
  /\ schema_temperature "temperature" (get fields "temperature")
       = inr (temperature input)
  /\ schema_maxOutputTokens "maxOutputTokens" (get fields "maxOutputTokens")
       = inr (maxOutputTokens input).
Proof.
  unfold geminiToolInputSchema.
  destruct (schema_model _ _), (schema_prompt _ _), (schema_temperature _ _),
    (schema_maxOutputTokens _ _), (schema_topK _ _), (schema_topP _ _),
    (schema_enableGrounding _ _); try discriminate.
  by intros [= <-].
Qed.

Lemma schema_prompt_inr v s :
  schema_prompt "prompt" v = inr s -> v = VStr s /\ 1 <= String.length s.
Proof.
  unfold schema_prompt, z_string. destruct v as [| | | |s'| |]; try discriminate.
  intros H. apply checked_inr in H as [H ->]. split; [done|].
  destruct s'; [discriminate H|simpl; lia].
Qed.

Lemma schema_temperature_inr v r :
  schema_temperature "temperature" v = inr r ->
  (v = VUndefined /\ r = Some (7 # 10))
  \/ (exists q, v = VNum q /\ r = Some q /\ (0 <= q /\ q <= 1)%Q).
Proof.
  unfold schema_temperature, default_, optional, z_number.
  destruct v; try discriminate.
  - intros [= <-]. by left.
  - destruct (checked _ _ q) as [|q'] eqn:E; [discriminate|].
    intros [= <-]. apply checked_inr in E as [E ->]. simpl in E.
    rewrite andb_true_r in E. apply temperature_checks in E. right. by exists q.
Qed.

Lemma schema_maxOutputTokens_inr v r :
  schema_maxOutputTokens "maxOutputTokens" v = inr r ->
  (v = VUndefined /\ r = Some (2048 # 1))
  \/ (exists q n, v = VNum q /\ r = Some q
        /\ (q == inject_Z n)%Q /\ (1 <= n <= 8192)%Z).
Proof.
  unfold schema_maxOutputTokens, default_, optional, z_number.
  destruct v; try discriminate.
  - intros [= <-]. by left.
  - destruct (checked _ _ q) as [|q'] eqn:E; [discriminate|].
    intros [= <-]. apply checked_inr in E as [E ->]. simpl in E.
    rewrite andb_true_r, andb_assoc in E.
    apply maxOutputTokens_checks in E as (n & Hq & Hn). right. by exists q, n.
Qed.

(** An argument object is accepted exactly when each of its seven fields
    is, and the parsed input holds the seven parsed values. *)
Lemma geminiToolInputSchema_fields fields input :
  geminiToolInputSchema (VObj fields) = inr input <->
  schema_model "model" (get fields "model") = inr (model input)
  /\ schema_prompt "prompt" (get fields "prompt") = inr (prompt input)
  /\ schema_temperature "temperature" (get fields "temperature")
       = inr (temperature input)
  /\ schema_maxOutputTokens "maxOutputTokens" (get fields "maxOutputTokens")
       = inr (maxOutputTokens input)
  /\ schema_topK "topK" (get fields "topK") = inr (topK input)
  /\ schema_topP "topP" (get fields "topP") = inr (topP input)
  /\ schema_enableGrounding "enableGrounding" (get fields "enableGrounding")
       = inr (enableGrounding input).
Proof.
  unfold geminiToolInputSchema. split.
  - destruct (schema_model _ _), (schema_prompt _ _), (schema_temperature _ _),
      (schema_maxOutputTokens _ _), (schema_topK _ _), (schema_topP _ _),
      (schema_enableGrounding _ _); try discriminate.
    by intros [= <-].
  - intros (-> & -> & -> & -> & -> & -> & ->). by destruct input.
Qed.

Lemma positive_integer_checks q :
  isInteger q && (0 <? Qnum q)%Z = true <->
  exists n : Z, (q == inject_Z n)%Q /\ (1 <= n)%Z.
Proof.
  unfold isInteger. rewrite !andb_true_iff, Z.eqb_eq, Z.ltb_lt.
  destruct q as [a d]. unfold Qeq, inject_Z. simpl. split.
  - intros [Hint Hpos]. exists (a / Z.pos d)%Z.
    assert (Ha : (a = Z.pos d * (a / Z.pos d))%Z) by (apply Z.div_exact; lia).
    split; [lia|]. nia.
  - intros (n & Hq & Hn). rewrite Z.mul_1_r in Hq. subst a.
    split; [apply Z.mod_mul; lia | nia].
Qed.

Lemma schema_model_accepts path v :
  (exists s, schema_model path v = inr s) <-> v = VUndefined \/ exists s, v = VStr s.
Proof.
  unfold schema_model, default_, z_string. split.
  - intros [s H]. destruct v; try discriminate; [by left|right; by eexists].
  - intros [->|[s ->]]; by eexists.
Qed.

Lemma schema_prompt_accepts path v :
  (exists s, schema_prompt path v = inr s) <-> exists s, v = VStr s /\ s ≠ "".
Proof.
  unfold schema_prompt, z_string. split.
  - intros [s H]. destruct v as [| | | |s'| |]; try discriminate.
    apply checked_inr in H as [H ->]. exists s'. split; [done|]. by intros ->.
  - intros (s & -> & Hne). exists s. apply checked_inr. split; [|done].
    by destruct s.
Qed.

Lemma unit_interval_accepts path m1 m2 v :
  (exists r, optional (z_number [num_min 0 m1; num_max 1 m2]) path v = inr r) <->
  v = VUndefined \/ exists q, v = VNum q /\ (0 <= q /\ q <= 1)%Q.
Proof.
  unfold optional, z_number. split.
  - intros [r H]. destruct v; try discriminate; [by left|]. right. exists q.
    destruct (checked _ _ q) as [|q'] eqn:E; [discriminate|].
    apply checked_inr in E as [E _]. simpl in E. rewrite andb_true_r in E.
    by apply temperature_checks in E.
  - intros [->|(q & -> & Hq)]; [by eexists|].
    apply temperature_checks in Hq. exists (Some q).
    assert (checked path [num_min 0 m1; num_max 1 m2] q = inr q) as ->; [|done].
    apply checked_inr. split; [|done]. simpl. by rewrite andb_true_r.
Qed.

Lemma schema_temperature_accepts path v :
  (exists r, schema_temperature path v = inr r) <->
  v = VUndefined \/ exists q, v = VNum q /\ (0 <= q /\ q <= 1)%Q.
Proof.
  unfold schema_temperature, default_.
  destruct v; try apply unit_interval_accepts.
  split; [by left|]. intros _. by eexists.
Qed.

Lemma schema_topP_accepts path v :
  (exists r, schema_topP path v = inr r) <->
  v = VUndefined \/ exists q, v = VNum q /\ (0 <= q /\ q <= 1)%Q.
Proof. apply unit_interval_accepts. Qed.

Lemma schema_maxOutputTokens_accepts path v :
  (exists r, schema_maxOutputTokens path v = inr r) <->
  v = VUndefined
  \/ exists q (n : Z), v = VNum q /\ (q == inject_Z n)%Q /\ (1 <= n <= 8192)%Z.
Proof.
  unfold schema_maxOutputTokens, default_, optional, z_number. split.
  - intros [r H]. destruct v; try discriminate; [by left|]. right.
    destruct (checked _ _ q) as [|q'] eqn:E; [discriminate|].
    apply checked_inr in E as [E _]. simpl in E.
    rewrite andb_true_r, andb_assoc in E.
    apply maxOutputTokens_checks in E as (n & Hq & Hn). by exists q, n.
  - intros [->|(q & n & -> & Hq & Hn)]; [by eexists|]. exists (Some q).
    match goal with |- context [checked ?p ?cs q] =>
      assert (checked p cs q = inr q) as ->; [|done] end.
    apply checked_inr. split; [|done]. simpl.
    rewrite andb_true_r, andb_assoc. apply maxOutputTokens_checks. by exists n.
Qed.

Lemma schema_topK_accepts path v :
  (exists r, schema_topK path v = inr r) <->
  v = VUndefined \/ exists q (n : Z), v = VNum q /\ (q == inject_Z n)%Q /\ (1 <= n)%Z.
Proof.
  unfold schema_topK, optional, z_number. split.
  - intros [r H]. destruct v; try discriminate; [by left|]. right.
    destruct (checked _ _ q) as [|q'] eqn:E; [discriminate|].
    apply checked_inr in E as [E _]. simpl in E. rewrite andb_true_r in E.
    apply positive_integer_checks in E as (n & Hq & Hn). by exists q, n.
  - intros [->|(q & n & -> & Hq & Hn)]; [by eexists|]. exists (Some q).
    match goal with |- context [checked ?p ?cs q] =>
      assert (checked p cs q = inr q) as ->; [|done] end.
    apply checked_inr. split; [|done]. simpl.
    rewrite andb_true_r. apply positive_integer_checks. by exists n.
Qed.

Lemma schema_enableGrounding_inr path v r :
  schema_enableGrounding path v = inr r <->
  (v = VUndefined /\ r = Some true) \/ exists b, v = VBool b /\ r = Some b.
Proof.
  unfold schema_enableGrounding, default_, optional, z_boolean. split.
  - destruct v; try discriminate; intros [= <-]; [by left|right; by eexists].
  - by intros [[-> ->]|(b & -> & ->)].
Qed.

(** C7. Validation comes before the callback: [callTool] answers
    [InvalidParams], and does not invoke the callback, for arguments
    whose [temperature] is given and is not a number in [0, 1], whose
    [prompt] is not a string of length at least 1, or whose
    [maxOutputTokens] is given and is not an integer between 1 and 8192;
    and when the arguments are accepted, the callback runs on them, with
    a missing [model] replaced by [gemini-1.5-flash-latest], a missing
    [temperature] by 0.7 and a missing [maxOutputTokens] by 2048.
    Arguments are accepted, and the callback is invoked, whenever every
    field is missing or within its bounds, [prompt] being a non-empty
    string. *)
Theorem tool_parameter_validation (config : Config) (sdk : Sdk) fields :
  (get fields "temperature" ≠ VUndefined ->
   ~ (exists q, get fields "temperature" = VNum q /\ (0 <= q /\ q <= 1)%Q) ->
   exists issues, callTool config sdk (VObj fields) = InvalidParams issues)
  /\ (~ (exists s, get fields "prompt" = VStr s /\ 1 <= String.length s) ->
      exists issues, callTool config sdk (VObj fields) = InvalidParams issues)
  /\ (get fields "maxOutputTokens" ≠ VUndefined ->
      ~ (exists q (n : Z), get fields "maxOutputTokens" = VNum q
           /\ (q == inject_Z n)%Q /\ (1 <= n <= 8192)%Z) ->
      exists issues, callTool config sdk (VObj fields) = InvalidParams issues)
  /\ (forall input, geminiToolInputSchema (VObj fields) = inr input ->
       callTool config sdk (VObj fields) = Invoked (callGemini config sdk input)
       /\ (get fields "model" = VUndefined ->
             model input = "gemini-1.5-flash-latest")
       /\ (get fields "temperature" = VUndefined ->
             temperature input = Some (7 # 10))
       /\ (get fields "maxOutputTokens" = VUndefined ->
             maxOutputTokens input = Some (2048 # 1)))
  /\ ((get fields "model" = VUndefined \/ exists s, get fields "model" = VStr s) ->
      (exists s, get fields "prompt" = VStr s /\ s ≠ "") ->
      (get fields "temperature" = VUndefined
       \/ exists q, get fields "temperature" = VNum q /\ (0 <= q /\ q <= 1)%Q) ->
      (get fields "maxOutputTokens" = VUndefined
       \/ exists q (n : Z), get fields "maxOutputTokens" = VNum q
            /\ (q == inject_Z n)%Q /\ (1 <= n <= 8192)%Z) ->
      (get fields "topK" = VUndefined
       \/ exists q (n : Z), get fields "topK" = VNum q
            /\ (q == inject_Z n)%Q /\ (1 <= n)%Z) ->
      (get fields "topP" = VUndefined
       \/ exists q, get fields "topP" = VNum q /\ (0 <= q /\ q <= 1)%Q) ->
      (get fields "enableGrounding" = VUndefined
       \/ exists b, get fields "enableGrounding" = VBool b) ->
      exists input,
        geminiToolInputSchema (VObj fields) = inr input
        /\ callTool config sdk (VObj fields) = Invoked (callGemini config sdk input)).
Proof.
  assert (Hrej : forall P : Prop,
            (forall input, geminiToolInputSchema (VObj fields) = inr input -> P) ->
            ~ P ->
            exists issues, callTool config sdk (VObj fields) = InvalidParams issues).
  { intros P HP HnP. unfold callTool.
    destruct (geminiToolInputSchema (VObj fields)) as [issues|input] eqn:E.
    - by exists issues.
    - destruct HnP. by apply (HP input). }
  split; [|split; [|split; [|split]]].
  - intros Hgiven Hout. refine (Hrej _ _ Hout). intros input H.
    apply geminiToolInputSchema_inr in H as (_ & _ & H & _).
    apply schema_temperature_inr in H as [[Hu _]|(q & Hq & _ & H)];
      [by destruct Hgiven|by exists q].
  - intros Hout. refine (Hrej _ _ Hout). intros input H.
    apply geminiToolInputSchema_inr in H as (_ & H & _).
    apply schema_prompt_inr in H. by exists (prompt input).
  - intros Hgiven Hout. refine (Hrej _ _ Hout). intros input H.
    apply geminiToolInputSchema_inr in H as (_ & _ & _ & H).
    apply schema_maxOutputTokens_inr in H as [[Hu _]|(q & n & Hq & _ & H)];
      [by destruct Hgiven|by exists q, n].
  - intros input H. split; [unfold callTool; by rewrite H|].
    apply geminiToolInputSchema_inr in H as (Hm & _ & Ht & Hx).
    split; [|split].
    + intros Hu. rewrite Hu in Hm. by injection Hm as <-.
    + intros Hu. rewrite Hu in Ht. by injection Ht as <-.
    + intros Hu. rewrite Hu in Hx. by injection Hx as <-.
  - intros H1 H2 H3 H4 H5 H6 H7.
    apply (schema_model_accepts "model") in H1 as [a1 H1].
    apply (schema_prompt_accepts "prompt") in H2 as [a2 H2].
    apply (schema_temperature_accepts "temperature") in H3 as [a3 H3].
    apply (schema_maxOutputTokens_accepts "maxOutputTokens") in H4 as [a4 H4].
    apply (schema_topK_accepts "topK") in H5 as [a5 H5].
    apply (schema_topP_accepts "topP") in H6 as [a6 H6].
    assert (exists a7, schema_enableGrounding "enableGrounding"
                         (get fields "enableGrounding") = inr a7) as [a7 H7'].
    { destruct H7 as [Hu|[b Hb]]; eexists; apply schema_enableGrounding_inr;
        [left|right; exists b]; done. }
    assert (Hparse : geminiToolInputSchema (VObj fields) =
              inr {| model := a1; prompt := a2; temperature := a3;
                     maxOutputTokens := a4; topK := a5; topP := a6;
                     enableGrounding := a7 |})
      by (by apply geminiToolInputSchema_fields).
    eexists. split; [exact Hparse|]. unfold callTool. by rewrite Hparse.
Qed.

End Validation.

Lemma tool_parameter_validation_witness :
  (exists issues, GeminiTool.callTool Scenario.config Scenario.timing_out
                    (VObj Scenario.hot) = GeminiTool.InvalidParams issues)
  /\ (exists issues, GeminiTool.callTool Scenario.config Scenario.timing_out
                       (VObj Scenario.empty_prompt) = GeminiTool.InvalidParams issues)
  /\ (exists issues, GeminiTool.callTool Scenario.config Scenario.timing_out
                       (VObj Scenario.too_long) = GeminiTool.InvalidParams issues)
  /\ (exists input,
        GeminiTool.callTool Scenario.config Scenario.timing_out (VObj Scenario.only_prompt)
          = GeminiTool.Invoked
              (GeminiTool.callGemini Scenario.config Scenario.timing_out input)
        /\ GeminiTool.model input = "gemini-1.5-flash-latest"
        /\ GeminiTool.temperature input = Some (7 # 10)
        /\ GeminiTool.maxOutputTokens input = Some (2048 # 1)).
Proof.
  split; [|split; [|split]].
  - apply (proj1 (tool_parameter_validation Scenario.config Scenario.timing_out
                    Scenario.hot)); [discriminate|].
    intros (q & [= <-] & _ & H). by apply H.
  - apply (proj1 (proj2 (tool_parameter_validation Scenario.config Scenario.timing_out
                           Scenario.empty_prompt))).
    intros (s & [= <-] & H). simpl in H. lia.
  - apply (proj1 (proj2 (proj2 (tool_parameter_validation Scenario.config
                                  Scenario.timing_out Scenario.too_long))));
      [discriminate|].
    intros (q & n & [= <-] & Hq & Hn). unfold Qeq, inject_Z in Hq. simpl in Hq. lia.
  - destruct (proj2 (proj2 (proj2 (proj2
                (tool_parameter_validation Scenario.config Scenario.timing_out
                   Scenario.only_prompt)))))
      as (input & Hparse & Hcall);
      [by left|by exists "Hello"|by left|by left|by left|by left|by left|].
    exists input. split; [exact Hcall|].
    destruct (proj1 (proj2 (proj2 (proj2
                (tool_parameter_validation Scenario.config Scenario.timing_out
                   Scenario.only_prompt)))) input Hparse)
      as (_ & Hm & Ht & Hx).
    split; [by apply Hm|]. split; [by apply Ht|by apply Hx].
Defined.

(** * Further properties *)

(** ** Configuration *)

Section Configuration.

Import Config.

Implicit Types (env : gmap string string) (n : N) (junk s : string).

Lemma digits_string_of_uint d junk :
  digits junk = "" ->
  digits (String.append (NilEmpty.string_of_uint d) junk) = NilEmpty.string_of_uint d.
Proof.
  intros Hjunk. induction d; simpl; rewrite ?IHd; done.
Qed.

Lemma append_empty s : String.append s "" = s.
Proof.
  induction s as [|c s IH]; [done|].
  change (String c (String.append s "") = String c s). by rewrite IH.
Qed.

Lemma to_uint_nonnil n : N.to_uint n ≠ Decimal.Nil.
Proof.
  destruct n as [|p]; [done|]. apply DecimalPos.Unsigned.to_uint_nonnil.
Qed.

Lemma append_cons c r s :
  String.append (String c r) s = String c (String.append r s).
Proof. reflexivity. Qed.

(** A string that starts with a digit has no white space to skip. *)
Lemma trimStart_digit c rest :
  is_digit c = true -> trimStart (String c rest) = String c rest.
Proof.
  intros H. destruct c as [[] [] [] [] [] [] [] []]; try discriminate H;
    by destruct rest as [|b [|c' rest]].
Qed.

(** [parseInt] reads a decimal numeral as the number it denotes and
    ignores whatever follows the digits. *)
Lemma parseInt_decimal n junk :
  digits junk = "" ->
  parseInt (String.append (decimal n) junk) = Some (Z.of_N n).
Proof.
  intros Hjunk. unfold decimal, NilZero.string_of_uint.
  pose proof (to_uint_nonnil n) as Hnn.
  pose proof (DecimalN.Unsigned.of_to n) as Hof.
  destruct (N.to_uint n) as [|d|d|d|d|d|d|d|d|d|d] eqn:E; [done|..];
    cbn -[parseInt]; unfold parseInt;
    rewrite append_cons, trimStart_digit by reflexivity; simpl;
    rewrite (digits_string_of_uint d junk Hjunk), NilEmpty.usu;
    cbv [uint_of_char]; by rewrite Hof.
Qed.

Lemma integer_variable_Some d max v k :
  integer_variable d max v = Some k ->
  parseInt (default d v) = Some k /\ (1 <= k <= max)%Z.
Proof.
  unfold integer_variable. destruct (parseInt (default d v)) as [m|]; [|done].
  destruct ((0 <? m)%Z && (m <=? max)%Z) eqn:E; [|done]. intros [= <-].
  apply andb_true_iff in E as [H1 H2]. split; [done|]. lia.
Qed.

Lemma GEMINI_API_KEY_Some v key :
  GEMINI_API_KEY v = Some key <-> v = Some key /\ key ≠ "" /\ key ≠ placeholder.
Proof.
  unfold GEMINI_API_KEY. destruct v as [k|]; [|split; [done|by intros [? _]]].
  destruct (String.eqb_spec k placeholder) as [Heq|Hne]; cbn [negb].
  - rewrite andb_false_r. split; [done|]. by intros ([= <-] & _ & H).
  - rewrite andb_true_r. destruct k as [|a k]; cbn [String.length Nat.leb].
    + split; [done|]. by intros ([= <-] & H & _).
    + split; [by intros [= <-]|by intros ([= <-] & _)].
Qed.

Lemma load_Loaded env c :
  load env = Loaded c ->
  GEMINI_API_KEY (env !! "GEMINI_API_KEY") = Some (geminiApiKey c)
  /\ PORT (env !! "PORT") = Some (port c)
  /\ REQUEST_TIMEOUT_MS (env !! "REQUEST_TIMEOUT_MS") = Some (requestTimeoutMs c)
  /\ LOG_LEVEL (env !! "LOG_LEVEL") = Some (logLevel c).
Proof.
  unfold load.
  destruct (GEMINI_API_KEY _), (PORT _), (REQUEST_TIMEOUT_MS _), (LOG_LEVEL _);
    try discriminate.
  by intros [= <-].
Qed.

(** X1. A variable that starts with a numeral is read as that numeral:
    when PORT is the decimal numeral of [n] followed by text that does not
    start with a digit, the loaded port is [n], and [n] lies in 1..65535;
    the text after the numeral is ignored. *)
Theorem port_is_leading_numeral env c n junk :
  load env = Loaded c ->
  env !! "PORT" = Some (String.append (decimal n) junk) ->
  digits junk = "" ->
  port c = Z.of_N n /\ (1 <= n <= 65535)%N.
Proof.
  intros Hload Henv Hjunk.
  apply load_Loaded in Hload as (_ & Hport & _).
  apply integer_variable_Some in Hport as [Hparse Hrange].
  rewrite Henv in Hparse. simpl in Hparse.
  rewrite (parseInt_decimal n junk Hjunk) in Hparse. injection Hparse as Hn.
  rewrite <- Hn in Hrange. split; [done|lia].
Qed.

(** X2. A configuration that was loaded is valid: the key is the one of
    the environment, is not empty and is not the placeholder; the port
    lies in 1..65535 and the request timeout in 1..60000. *)
Theorem loaded_config_is_valid env c :
  load env = Loaded c ->
  env !! "GEMINI_API_KEY" = Some (geminiApiKey c)
  /\ geminiApiKey c ≠ "" /\ geminiApiKey c ≠ placeholder
  /\ (1 <= port c <= 65535)%Z
  /\ (1 <= requestTimeoutMs c <= 60000)%Z.
Proof.
  intros H. apply load_Loaded in H as (Hkey & Hport & Htimeout & _).
  apply GEMINI_API_KEY_Some in Hkey as (? & ? & ?).
  apply integer_variable_Some in Hport as [_ ?].
  apply integer_variable_Some in Htimeout as [_ ?].
  done.
Qed.

(** X3. With a usable key and none of the optional variables set, the
    configuration is loaded with port 3000, a request timeout of 30000 ms
    and log level [info]. *)
Theorem load_defaults env key :
  env !! "GEMINI_API_KEY" = Some key -> key ≠ "" -> key ≠ placeholder ->
  env !! "PORT" = None -> env !! "REQUEST_TIMEOUT_MS" = None ->
  env !! "LOG_LEVEL" = None ->
  load env =
    Loaded {| geminiApiKey := key; port := 3000; requestTimeoutMs := 30000;
              logLevel := Logger.INFO; serverInfo_name := "GeminiMcpServer";
              serverInfo_version := "1.0.0" |}.
Proof.
  intros Hkey Hne Hph Hport Htimeout Hlevel. unfold load.
  rewrite Hport, Htimeout, Hlevel.
  assert (GEMINI_API_KEY (env !! "GEMINI_API_KEY") = Some key) as ->
    by (by apply GEMINI_API_KEY_Some).
  reflexivity.
Qed.

(** X4. Startup fails fast: when the key is missing, empty or the
    placeholder, or when PORT is a numeral that denotes 0 or more than
    65535, loading the configuration ends the process with status 1,
    whatever the other variables say. *)
Theorem load_fails_fast env :
  (env !! "GEMINI_API_KEY" = None \/ env !! "GEMINI_API_KEY" = Some ""
   \/ env !! "GEMINI_API_KEY" = Some placeholder ->
   load env = Exit 1)
  /\ (forall n, env !! "PORT" = Some (decimal n) -> (n = 0 \/ 65535 < n)%N ->
        load env = Exit 1).
Proof.
  split.
  - intros H. unfold load.
    assert (GEMINI_API_KEY (env !! "GEMINI_API_KEY") = None) as ->; [|done].
    destruct H as [->|[->| ->]]; reflexivity.
  - intros n Hport Hn. unfold load.
    assert (PORT (env !! "PORT") = None) as ->.
    { rewrite Hport. unfold PORT, integer_variable. simpl default.
      pose proof (parseInt_decimal n "" eq_refl) as Hp.
      rewrite append_empty in Hp.
      rewrite Hp.
      destruct ((0 <? Z.of_N n)%Z && (Z.of_N n <=? 65535)%Z) eqn:E; [|done].
      apply andb_true_iff in E as [H1 H2]. lia. }
    by destruct (GEMINI_API_KEY _).
Qed.

(** X5. The configured timeout is the one the user reads: when
    REQUEST_TIMEOUT_MS is a numeral for [n], possibly followed by other
    text, a deadline error of the library that the log entry can be
    written for is turned into the error with status 408 and the message
    [Request timed out after <n>ms] behind the class prefix. A deadline
    error that [JSON.stringify] cannot write never gets that far: the
    call is rejected with the [TypeError] of the log entry. *)
Theorem configured_timeout_is_reported env c n junk v :
  load env = Loaded c ->
  env !! "REQUEST_TIMEOUT_MS" = Some (String.append (decimal n) junk) ->
  digits junk = "" ->
  Errors.code v = Some (Errors.CodeStr "DEADLINE_EXCEEDED") ->
  GeminiClient.callGeminiApi_catch (client c) (Errors.Other v) =
    Errors.ApiError
      {| Errors.message :=
           String.append "External API error: Request timed out after "
             (String.append (decimal n) "ms");
         Errors.statusCode := Some (Errors.CodeNum 408);
         Errors.apiResponse := Some "Request took too long to complete" |}
  /\ forall complaint,
       GeminiClient.callGeminiApi_catch (client c) (Errors.Unserializable v complaint)
         = Errors.TypeError complaint.
Proof.
  intros Hload Henv Hjunk Hcode.
  apply load_Loaded in Hload as (_ & _ & Htimeout & _).
  apply integer_variable_Some in Htimeout as [Hparse _].
  rewrite Henv in Hparse. simpl in Hparse.
  rewrite (parseInt_decimal n junk Hjunk) in Hparse. injection Hparse as Hn.
  split; [|done].
  unfold GeminiClient.callGeminiApi_catch, GeminiClient.code_is. rewrite Hcode.
  simpl. unfold client. simpl. by rewrite <- Hn, N2Z.id.
Qed.

(** X6. Error entries are written under every configuration that loads, and
    with LOG_LEVEL unset the entries that are dropped are exactly the
    debug entries. *)
Theorem default_level_drops_debug env c ts l msg (meta : option JsObject) :
  load env = Loaded c ->
  LoggerOutput.write (logLevel c) ts ERROR msg meta ≠ None
  /\ (env !! "LOG_LEVEL" = None ->
      LoggerOutput.write (logLevel c) ts l msg meta = None <-> l = DEBUG).
Proof.
  intros Hload. apply load_Loaded in Hload as (_ & _ & _ & Hlevel). split.
  - unfold LoggerOutput.write. by destruct (logLevel c).
  - intros Hunset. rewrite Hunset in Hlevel. injection Hlevel as <-.
    unfold LoggerOutput.write. destruct l; simpl; split; done.
Qed.

End Configuration.

Lemma port_is_leading_numeral_witness :
  Config.load Cases.suffixed_environment = Config.Loaded (Cases.loaded 8080 5000)
  /\ Config.port (Cases.loaded 8080 5000) = 8080%Z.
Proof.
  split; [reflexivity|].
  refine (proj1 (port_is_leading_numeral Cases.suffixed_environment
                   (Cases.loaded 8080 5000) 8080 "/tcp" _ _ _)); reflexivity.
Defined.

Lemma loaded_config_is_valid_witness :
  (1 <= Config.port (Cases.loaded 8080 5000) <= 65535)%Z
  /\ (1 <= Config.requestTimeoutMs (Cases.loaded 8080 5000) <= 60000)%Z.
Proof.
  pose proof (loaded_config_is_valid Cases.suffixed_environment
                (Cases.loaded 8080 5000) eq_refl) as (_ & _ & _ & H1 & H2).
  by split.
Defined.

Lemma load_defaults_witness :
  Config.load Cases.minimal_environment = Config.Loaded (Cases.loaded 3000 30000).
Proof.
  apply (load_defaults Cases.minimal_environment "AIza-example");
    [reflexivity|discriminate|discriminate|reflexivity..].
Defined.

Lemma load_fails_fast_witness :
  Config.load ∅ = Config.Exit 1
  /\ Config.load (<["PORT" := "70000"]> Cases.minimal_environment) = Config.Exit 1.
Proof.
  split.
  - apply (proj1 (load_fails_fast ∅)). left. reflexivity.
  - apply (proj2 (load_fails_fast (<["PORT" := "70000"]> Cases.minimal_environment))
             70000%N); [reflexivity|right; lia].
Defined.

Lemma configured_timeout_is_reported_witness :
  GeminiClient.callGeminiApi_catch (Config.client (Cases.loaded 8080 5000))
    (Errors.Other Scenario.deadline_exceeded) =
  Errors.ApiError
    {| Errors.message := "External API error: Request timed out after 5000ms";
       Errors.statusCode := Some (Errors.CodeNum 408);
       Errors.apiResponse := Some "Request took too long to complete" |}.
Proof.
  refine (proj1 (configured_timeout_is_reported Cases.suffixed_environment
                   (Cases.loaded 8080 5000) 5000 "ms" Scenario.deadline_exceeded
                   _ _ _ _)); reflexivity.
Defined.

Lemma default_level_drops_debug_witness :
  LoggerOutput.write Logger.INFO "2025-01-01T00:00:00.000Z" Logger.DEBUG
    "Closed transport" None = None.
Proof.
  apply (proj2 (proj2 (default_level_drops_debug Cases.minimal_environment
                         (Cases.loaded 3000 30000) "2025-01-01T00:00:00.000Z"
                         Logger.DEBUG "Closed transport" None eq_refl) eq_refl)).
  reflexivity.
Defined.

(** ** What is written to the console *)

Section ConsoleOutput.

Import LoggerOutput.

Implicit Types (target source meta : JsObject) (key : string).

Lemma get_spread_loop source ks : forall target key,
  get (fold_left (fun o k => assign o k (get source k)) ks target) key =
    if existsb (fun k => String.eqb k key) ks then get source key else get target key.
Proof.
  induction ks as [|k ks IH]; intros target key; simpl; [done|].
  rewrite IH, get_assign.
  destruct (String.eqb_spec k key) as [->|]; simpl; [|done].
  by destruct (existsb _ ks).
Qed.

Lemma get_spread target source key :
  get (spread target source) key =
    if has source key then get source key else get target key.
Proof. unfold spread. by rewrite get_spread_loop, has_keys. Qed.

Lemma sanitizeMetadata_get meta key :
  has (sanitizeMetadata (Some meta)) key = has meta key
  /\ get (sanitizeMetadata (Some meta)) key =
       if is_sensitive key && has meta key then REDACTED else get meta key.
Proof.
  unfold sanitizeMetadata.
  destruct (redact_loop (keys meta) meta key) as [H1 H2].
  - intros k Hin. rewrite has_keys. apply existsb_exists. exists k.
    split; [by apply list_elem_of_In|apply String.eqb_refl].
  - split; [by rewrite !has_keys, H1|]. by rewrite H2, has_keys.
Qed.

(** X7. The object written for a log call. A key of the metadata whose name
    is sensitive is written as [[REDACTED]]; every other key of the
    metadata is written with the metadata's value, also when it is named
    [timestamp], [level] or [message], in which case it replaces the
    field of the entry; a key the metadata does not have reads as in the
    three fields of the entry. *)
Theorem console_output_is_redacted ts l msg meta key :
  let written := logToConsole ts l msg (Some meta) in
  let entry := [ ("timestamp", VStr ts); ("level", VStr (level_name l));
                 ("message", VStr msg) ] in
  (has meta key = true -> is_sensitive key = true -> get written key = REDACTED)
  /\ (has meta key = true -> is_sensitive key = false ->
      get written key = get meta key)
  /\ (has meta key = false -> get written key = get entry key).
Proof.
  simpl. unfold logToConsole. rewrite get_spread.
  destruct (sanitizeMetadata_get meta key) as [-> ->].
  split; [|split].
  - by intros -> ->.
  - by intros -> ->.
  - by intros ->.
Qed.

End ConsoleOutput.

Lemma console_output_is_redacted_witness :
  get (LoggerOutput.logToConsole "2025-01-01T00:00:00.000Z" DEBUG
         "Initializing Gemini API call with @google/genai SDK"
         (Some Cases.initializing)) "maxOutputTokens" = REDACTED.
Proof.
  apply (proj1 (console_output_is_redacted "2025-01-01T00:00:00.000Z" DEBUG
                  "Initializing Gemini API call with @google/genai SDK"
                  Cases.initializing "maxOutputTokens")); reflexivity.
Defined.

(** ** The outbound call and what the tool user reads *)

Section Outbound.

Import Errors GeminiClient GeminiTool GeminiRequest.

Implicit Types (sdk : Sdk) (args : GeminiToolInput) (v : Value).

Lemma getGenAIClient_available (config : GeminiClient.Config) sdk :
  client_available config sdk = true -> getGenAIClient config sdk = Resolved tt.
Proof.
  unfold client_available, getGenAIClient.
  destruct (genAIClient sdk); simpl; [done|]. by intros ->.
Qed.

(** [callGeminiApi] makes one call, with the request built from its
    parameters. *)
Lemma callGeminiApi_try_eq (config : GeminiClient.Config) sdk params :
  callGeminiApi_try config sdk params =
    match getGenAIClient config sdk with
    | Rejected e => Rejected e
    | Resolved _ =>
        match generateContent sdk (requestOptions params) with
        | Rejected e => Rejected e
        | Resolved response => structured response
        end
    end.
Proof. reflexivity. Qed.

Lemma callGeminiApi_available (config : GeminiClient.Config) sdk params :
  client_available config sdk = true ->
  callGeminiApi config sdk params =
    match generateContent sdk (requestOptions params) with
    | Rejected e => Rejected (callGeminiApi_catch config e)
    | Resolved response =>
        match structured response with
        | Resolved r => Resolved r
        | Rejected e => Rejected (callGeminiApi_catch config e)
        end
    end.
Proof.
  intros H. unfold callGeminiApi.
  rewrite callGeminiApi_try_eq, (getGenAIClient_available _ _ H).
  by destruct (generateContent sdk (requestOptions params)).
Qed.

(** X8. Once the configuration has loaded, the client can always be built:
    the branch of [getGenAIClient] that raises the 401 error for a
    missing key is never taken. *)
Theorem loaded_config_has_client env c sdk :
  Config.load env = Config.Loaded c ->
  getGenAIClient (Config.client c) sdk = Resolved tt.
Proof.
  intros H. apply load_Loaded in H as (Hkey & _).
  apply GEMINI_API_KEY_Some in Hkey as (_ & Hne & _).
  apply getGenAIClient_available. unfold client_available.
  apply orb_true_iff. right. apply truthy_Some. exact Hne.
Qed.

(** X9. The request timeout of the configuration has no part in the call:
    it is not given to the library, and two configurations with the same
    key give the same result for the same arguments, unless the library
    itself reports a deadline, where the configured number is quoted in
    the text. *)
Theorem timeout_only_changes_the_text (config config' : GeminiClient.Config) sdk args :
  geminiApiKey config = geminiApiKey config' ->
  (forall v, generateContent sdk (requestOptions (api_params args)) = Rejected (Other v) ->
     code v ≠ Some (CodeStr "DEADLINE_EXCEEDED")) ->
  callGemini config sdk args = callGemini config' sdk args.
Proof.
  intros Hkey Hdeadline. unfold callGemini, callGeminiApi.
  rewrite !callGeminiApi_try_eq. unfold getGenAIClient. rewrite Hkey.
  destruct (negb (genAIClient sdk) && negb (truthy (Some (geminiApiKey config'))));
    [done|].
  destruct (generateContent sdk (requestOptions (api_params args)))
    as [response|[r|e|v|v c]] eqn:E; [|done|done| |done].
  { unfold structured. destruct (head _); [|done]. by destruct (truthy _). }
  assert (code_is v "DEADLINE_EXCEEDED" = false) as Hno.
  { unfold code_is. destruct (code v) as [[n|s]|] eqn:Ec; try done.
    destruct (String.eqb_spec s "DEADLINE_EXCEEDED") as [->|]; [|done].
    by destruct (Hdeadline v eq_refl). }
  unfold callGeminiApi_catch. by rewrite Hno.
Qed.

(** X10. The tool answers without the error flag exactly when the call
    resolved with a first candidate and a non-empty text, and then the
    content is that text in one text item. *)
Theorem tool_answers_iff (config : GeminiClient.Config) sdk args result :
  client_available config sdk = true ->
  callGemini config sdk args = Returns result /\ isError result = None
  <-> exists response candidate answer,
        generateContent sdk (requestOptions (api_params args)) = Resolved response
        /\ head (default [] (r_candidates response)) = Some candidate
        /\ r_text response = Some answer /\ answer ≠ ""
        /\ result = {| content := [text_item answer]; isError := None |}.
Proof.
  intros Hc. unfold callGemini. rewrite (callGeminiApi_available _ _ _ Hc).
  destruct (generateContent sdk (requestOptions (api_params args)))
    as [response|error] eqn:E.
  - assert (Hback : forall P : Prop,
              (forall candidate answer,
                 head (default [] (r_candidates response)) = Some candidate ->
                 r_text response = Some answer -> answer ≠ "" ->
                 result = {| content := [text_item answer]; isError := None |} -> P) ->
              (exists response' candidate answer,
                 Resolved response = Resolved response'
                 /\ head (default [] (r_candidates response')) = Some candidate
                 /\ r_text response' = Some answer /\ answer ≠ ""
                 /\ result = {| content := [text_item answer]; isError := None |}) ->
              P).
    { intros P HP (r' & c' & a' & [= <-] & Hh & Ht & Hne & Hr). by apply (HP c' a'). }
    unfold structured.
    destruct (head (default [] (r_candidates response))) as [candidate|] eqn:Eh.
    + destruct (r_text response) as [answer|] eqn:Et; simpl.
      * destruct (String.eqb_spec answer "") as [->|Hne]; simpl.
        -- split; [by intros [[= <-] H]|]. apply Hback.
           intros c' a' _ [= <-] Hne _. done.
        -- split.
           ++ intros [[= <-] _]. by exists response, candidate, answer.
           ++ apply Hback. intros c' a' _ [= <-] _ ->. done.
      * split; [by intros [[= <-] H]|]. apply Hback. by intros c' a' _ [=].
    + simpl. split; [by intros [[= <-] H]|]. apply Hback. by intros c' a' [=].
  - split; [|by intros (? & ? & ? & [=] & _)].
    pose proof (callGeminiApi_catch_not_nullish config error) as Hnn.
    pose proof (callGeminiApi_catch_writable config error) as Hw.
    destruct (callGeminiApi_catch config error) as [r|e|v'|v' c];
      [by destruct (Hnn r)|by intros [[= <-] H]..|by destruct (Hw v' c)].
Qed.

(** X11. A call that resolved without a candidate, or without text, is
    reported to the tool user as an error with status 200, not as an
    empty answer. *)
Theorem empty_response_is_an_error (config : GeminiClient.Config) sdk args response :
  client_available config sdk = true ->
  generateContent sdk (requestOptions (api_params args)) = Resolved response ->
  head (default [] (r_candidates response)) = None
    \/ truthy (r_text response) = false ->
  exists reason,
    callGemini config sdk args =
      Returns {| content :=
                   [text_item ("Error interacting with Gemini API: API request failed (status 200): External API error: " ++ reason)];
                 isError := Some true |}.
Proof.
  intros Hc Hg Hempty. unfold callGemini.
  rewrite (callGeminiApi_available _ _ _ Hc), Hg. unfold structured.
  destruct (head (default [] (r_candidates response))) as [candidate|].
  - destruct Hempty as [|Ht]; [done|]. rewrite Ht. simpl. by eexists.
  - simpl. by eexists.
Qed.

(** What the tool returns when the library rejects with a value the log
    entry cannot be written for: the complaint of [JSON.stringify], with
    no status. *)
Lemma unserializable_failure (config : GeminiClient.Config) sdk args v complaint :
  client_available config sdk = true ->
  generateContent sdk (requestOptions (api_params args))
    = Rejected (Unserializable v complaint) ->
  callGemini config sdk args =
    Returns {| content :=
                 [text_item ("Error interacting with Gemini API: " ++ complaint)];
               isError := Some true |}.
Proof.
  intros Hc Hg. unfold callGemini. by rewrite (callGeminiApi_available _ _ _ Hc), Hg.
Qed.

(** X12. When the library rejects the call with a value that is neither
    nullish nor an [ExternalApiError] and that the log entry can be
    written for, the tool user reads a status that is never missing,
    being 408, 429, 500 or the error's own code, and behind the prefix of
    the error class one of five messages: the timeout, the rate limit,
    the error's message behind [Gemini API error: ], the error's message,
    or [Unknown error occurred calling Gemini API]. When the log entry
    cannot be written, the user reads the complaint of [JSON.stringify]
    and no status. *)
Theorem sdk_failure_names_a_status (config : GeminiClient.Config) sdk args v :
  client_available config sdk = true ->
  (generateContent sdk (requestOptions (api_params args)) = Rejected (Other v) ->
   exists status reason,
     truthy_code (Some status) = true
     /\ (status = CodeNum 408 \/ status = CodeNum 429 \/ status = CodeNum 500
         \/ code v = Some status)
     /\ (reason = String.append "Request timed out after "
                    (String.append (decimal (requestTimeoutMs config)) "ms")
         \/ reason = "Rate limit exceeded for Gemini API"
         \/ reason = String.append "Gemini API error: " (show (msg v))
         \/ reason = show (msg v)
         \/ reason = "Unknown error occurred calling Gemini API")
     /\ callGemini config sdk args =
          Returns {| content :=
                       [text_item ("Error interacting with Gemini API: "
                                   ++ "API request failed"
                                   ++ (" (status " ++ show_code (Some status) ++ ")")
                                   ++ ": " ++ "External API error: " ++ reason)];
                     isError := Some true |})
  /\ (forall complaint,
        generateContent sdk (requestOptions (api_params args))
          = Rejected (Unserializable v complaint) ->
        callGemini config sdk args =
          Returns {| content :=
                       [text_item ("Error interacting with Gemini API: " ++ complaint)];
                     isError := Some true |}).
Proof.
  intros Hc. split; [|intros complaint; by apply unserializable_failure].
  intros Hg. unfold callGemini.
  rewrite (callGeminiApi_available _ _ _ Hc), Hg. unfold callGeminiApi_catch.
  destruct (code_is v "DEADLINE_EXCEEDED").
  { exists (CodeNum 408). eexists. split; [done|]. split; [by left|].
    split; [by left|done]. }
  destruct (code_is v "RESOURCE_EXHAUSTED").
  { exists (CodeNum 429). eexists. split; [done|]. split; [by right; left|].
    split; [by right; left|done]. }
  destruct (truthy (details v)).
  - destruct (truthy_code (code v)) eqn:Et.
    + destruct (code v) as [c|]; [|done]. exists c. eexists. split; [done|].
      split; [by right; right; right|]. split; [by right; right; left|].
      cbv beta iota delta [formatErrorForUser new_ExternalApiError statusCode message].
      by rewrite Et.
    + exists (CodeNum 500). eexists. split; [done|]. split; [by right; right; left|].
      split; [by right; right; left|done].
  - exists (CodeNum 500). destruct (truthy (msg v)); eexists;
      (split; [done|]); (split; [by right; right; left|]);
      (split; [|done]); [by right; right; right; left|by right; right; right; right].
Qed.

(** X13. A rate limit error of the library that the log entry can be
    written for reads the same for every request and every
    configuration; one the log entry cannot be written for reads as the
    complaint of [JSON.stringify] instead. *)
Theorem rate_limit_is_reported (config : GeminiClient.Config) sdk args v :
  client_available config sdk = true ->
  code v = Some (CodeStr "RESOURCE_EXHAUSTED") ->
  (generateContent sdk (requestOptions (api_params args)) = Rejected (Other v) ->
   callGemini config sdk args =
     Returns {| content :=
                  [text_item "Error interacting with Gemini API: API request failed (status 429): External API error: Rate limit exceeded for Gemini API"];
                isError := Some true |})
  /\ (forall complaint,
        generateContent sdk (requestOptions (api_params args))
          = Rejected (Unserializable v complaint) ->
        callGemini config sdk args =
          Returns {| content :=
                       [text_item ("Error interacting with Gemini API: " ++ complaint)];
                     isError := Some true |}).
Proof.
  intros Hc Hcode. split; [|intros complaint; by apply unserializable_failure].
  intros Hg. unfold callGemini.
  rewrite (callGeminiApi_available _ _ _ Hc), Hg.
  unfold callGeminiApi_catch, code_is. by rewrite Hcode.
Qed.

(** X14. For an error the log entry can be written for, what the tool
    user reads depends on the error's code, its message and on whether it
    has details, and on nothing else: the content of [details], the stack
    and the rendering of the error object stay out of the text. For an
    error the log entry cannot be written for, the text is the complaint
    of [JSON.stringify], which is about the error object itself. *)
Theorem failure_text_hides_details (config : GeminiClient.Config) v v' :
  code v = code v' -> msg v = msg v' ->
  truthy (details v) = truthy (details v') ->
  formatErrorForUser (callGeminiApi_catch config (Other v))
    = formatErrorForUser (callGeminiApi_catch config (Other v'))
  /\ forall complaint,
       formatErrorForUser (callGeminiApi_catch config (Unserializable v complaint))
         = complaint.
Proof.
  intros Hcode Hmsg Hdetails. split; [|done].
  unfold callGeminiApi_catch, code_is.
  rewrite Hcode, Hmsg, Hdetails.
  repeat (match goal with |- context [if ?b then _ else _] => destruct b end);
    reflexivity.
Qed.

End Outbound.

Lemma loaded_config_has_client_witness :
  GeminiClient.getGenAIClient (Config.client (Cases.loaded 3000 30000))
    Scenario.timing_out = GeminiClient.Resolved tt.
Proof.
  exact (loaded_config_has_client Cases.minimal_environment
           (Cases.loaded 3000 30000) Scenario.timing_out eq_refl).
Defined.

Lemma timeout_only_changes_the_text_witness :
  GeminiTool.callGemini Scenario.config (Cases.failing Cases.rate_limited)
    Scenario.args
  = GeminiTool.callGemini (Config.client (Cases.loaded 8080 5000))
      (Cases.failing Cases.rate_limited) Scenario.args.
Proof.
  apply timeout_only_changes_the_text; [reflexivity|].
  intros v [= <-]. discriminate.
Defined.

Lemma tool_answers_iff_witness :
  GeminiTool.callGemini Scenario.config Cases.answering Scenario.args
    = GeminiTool.Returns
        {| GeminiTool.content := [GeminiTool.text_item "Hello there"];
           GeminiTool.isError := None |}
  /\ GeminiTool.isError
       {| GeminiTool.content := [GeminiTool.text_item "Hello there"];
          GeminiTool.isError := None |} = None.
Proof.
  apply (proj2 (tool_answers_iff Scenario.config Cases.answering Scenario.args
                  _ eq_refl)).
  exists Cases.answer,
    {| GeminiClient.c_finishReason := Some "STOP";
       GeminiClient.c_safetyRatings := None |}, "Hello there".
  split; [reflexivity|]. split; [reflexivity|]. split; [reflexivity|].
  split; [discriminate|reflexivity].
Defined.

Lemma empty_response_is_an_error_witness :
  exists reason,
    GeminiTool.callGemini Scenario.config (Cases.replying Cases.no_candidates)
      Scenario.args =
    GeminiTool.Returns
      {| GeminiTool.content :=
           [GeminiTool.text_item
              (String.append "Error interacting with Gemini API: API request failed (status 200): External API error: " reason)];
         GeminiTool.isError := Some true |}.
Proof.
  apply (empty_response_is_an_error Scenario.config
           (Cases.replying Cases.no_candidates) Scenario.args Cases.no_candidates);
    [reflexivity|reflexivity|left; reflexivity].
Defined.

Lemma sdk_failure_names_a_status_witness :
  exists status reason,
    Errors.truthy_code (Some status) = true
    /\ (status = Errors.CodeNum 408 \/ status = Errors.CodeNum 429
        \/ status = Errors.CodeNum 500 \/ Errors.code Cases.unavailable = Some status)
    /\ GeminiTool.callGemini Scenario.config (Cases.failing Cases.unavailable)
         Scenario.args =
       GeminiTool.Returns
         {| GeminiTool.content :=
              [GeminiTool.text_item
                 (String.append "Error interacting with Gemini API: API request failed"
                    (String.append
                       (String.append " (status "
                          (String.append (Errors.show_code (Some status)) ")"))
                       (String.append ": External API error: " reason)))];
            GeminiTool.isError := Some true |}.
Proof.
  destruct (proj1 (sdk_failure_names_a_status Scenario.config
                     (Cases.failing Cases.unavailable) Scenario.args Cases.unavailable
                     eq_refl) eq_refl)
    as (status & reason & H1 & H2 & _ & H3).
  exists status, reason. split; [exact H1|]. split; [exact H2|exact H3].
Defined.

Lemma rate_limit_is_reported_witness :
  GeminiTool.callGemini Scenario.config (Cases.failing Cases.rate_limited)
    Scenario.args =
  GeminiTool.Returns
    {| GeminiTool.content :=
         [GeminiTool.text_item "Error interacting with Gemini API: API request failed (status 429): External API error: Rate limit exceeded for Gemini API"];
       GeminiTool.isError := Some true |}.
Proof.
  refine (proj1 (rate_limit_is_reported Scenario.config
                   (Cases.failing Cases.rate_limited) Scenario.args
                   Cases.rate_limited _ _) _); reflexivity.
Defined.

Lemma failure_text_hides_details_witness :
  Errors.formatErrorForUser
    (GeminiClient.callGeminiApi_catch Scenario.config (Errors.Other Cases.rate_limited))
  = Errors.formatErrorForUser
      (GeminiClient.callGeminiApi_catch Scenario.config
         (Errors.Other Cases.rate_limited_elsewhere)).
Proof.
  refine (proj1 (failure_text_hides_details Scenario.config Cases.rate_limited
                   Cases.rate_limited_elsewhere _ _ _)); reflexivity.
Defined.

(** An error object that refers to itself: the log entry cannot be
    written, and the user reads the complaint, whatever the code says. *)
Lemma circular_error_reads_as_the_complaint :
  GeminiTool.callGemini Scenario.config
    {| GeminiClient.genAIClient := true;
       GeminiClient.generateContent := fun _ =>
         GeminiClient.Rejected
           (Errors.Unserializable Cases.rate_limited
              "Converting circular structure to JSON") |}
    Scenario.args =
  GeminiTool.Returns
    {| GeminiTool.content :=
         [GeminiTool.text_item
            "Error interacting with Gemini API: Converting circular structure to JSON"];
       GeminiTool.isError := Some true |}.
Proof. reflexivity. Qed.

(** ** The argument schema as a whole *)

Section Schema.

Import GeminiClient GeminiTool GeminiRequest.

Implicit Types (fields : JsObject) (q : Q) (path : string) (v : JsValue).

(** X15. The arguments of the tool are accepted exactly when: [model] is
    missing or a string (any string, the empty one included); [prompt] is
    a non-empty string; [temperature] and [topP] are missing or numbers
    in [0, 1]; [maxOutputTokens] is missing or an integer in 1..8192;
    [topK] is missing or an integer from 1 on; [enableGrounding] is
    missing or a boolean. Other fields are not looked at. *)
Theorem arguments_accepted_iff fields :
  (exists input, geminiToolInputSchema (VObj fields) = inr input) <->
  (get fields "model" = VUndefined \/ exists s, get fields "model" = VStr s)
  /\ (exists s, get fields "prompt" = VStr s /\ s ≠ "")
  /\ (get fields "temperature" = VUndefined
      \/ exists q, get fields "temperature" = VNum q /\ (0 <= q /\ q <= 1)%Q)
  /\ (get fields "maxOutputTokens" = VUndefined
      \/ exists q (n : Z), get fields "maxOutputTokens" = VNum q
           /\ (q == inject_Z n)%Q /\ (1 <= n <= 8192)%Z)
  /\ (get fields "topK" = VUndefined
      \/ exists q (n : Z), get fields "topK" = VNum q
           /\ (q == inject_Z n)%Q /\ (1 <= n)%Z)
  /\ (get fields "topP" = VUndefined
      \/ exists q, get fields "topP" = VNum q /\ (0 <= q /\ q <= 1)%Q)
  /\ (get fields "enableGrounding" = VUndefined
      \/ exists b, get fields "enableGrounding" = VBool b).
Proof.
  rewrite <- (schema_model_accepts "model"), <- (schema_prompt_accepts "prompt"),
    <- (schema_temperature_accepts "temperature"),
    <- (schema_maxOutputTokens_accepts "maxOutputTokens"),
    <- (schema_topK_accepts "topK"), <- (schema_topP_accepts "topP").
  split.
  - intros [input H]. apply geminiToolInputSchema_fields in H
      as (H1 & H2 & H3 & H4 & H5 & H6 & H7).
    split; [by eexists|]. split; [by eexists|]. split; [by eexists|].
    split; [by eexists|]. split; [by eexists|]. split; [by eexists|].
    apply schema_enableGrounding_inr in H7 as [[? _]|(b & ? & _)];
      [by left|right; by exists b].
  - intros ([a1 H1] & [a2 H2] & [a3 H3] & [a4 H4] & [a5 H5] & [a6 H6] & H7).
    assert (exists a7, schema_enableGrounding "enableGrounding"
                         (get fields "enableGrounding") = inr a7) as [a7 H7'].
    { destruct H7 as [Hu|[b Hb]]; eexists; apply schema_enableGrounding_inr;
        [left|right; exists b]; done. }
    exists {| model := a1; prompt := a2; temperature := a3; maxOutputTokens := a4;
              topK := a5; topP := a6; enableGrounding := a7 |}.
    by apply geminiToolInputSchema_fields.
Qed.

(** X16. A call through the tool asks for grounding with web search unless
    the arguments set [enableGrounding] to [false]: the schema's default
    is [true], and it is the schema's default, not the client's, that
    reaches the request. *)
Theorem grounding_unless_switched_off fields input :
  geminiToolInputSchema (VObj fields) = inr input ->
  (get fields "enableGrounding" = VBool false ->
     ro_tools (requestOptions (api_params input)) = None)
  /\ (get fields "enableGrounding" ≠ VBool false ->
      ro_tools (requestOptions (api_params input)) = Some ["googleSearchRetrieval"]).
Proof.
  intros H. apply geminiToolInputSchema_fields in H as (_ & _ & _ & _ & _ & _ & H).
  unfold requestOptions, api_params. simpl.
  apply schema_enableGrounding_inr in H as [[-> ->]|(b & -> & ->)].
  - by split.
  - split; [by intros [= ->]|]. destruct b; [done|]. by intros [].
Qed.

(** The issues of every field are put together. *)
Lemma issues_are_collected fields i :
  i ∈ issues_of (schema_model "model" (get fields "model"))
      ++ issues_of (schema_prompt "prompt" (get fields "prompt"))
      ++ issues_of (schema_temperature "temperature" (get fields "temperature"))
      ++ issues_of (schema_maxOutputTokens "maxOutputTokens"
                      (get fields "maxOutputTokens"))
      ++ issues_of (schema_topK "topK" (get fields "topK"))
      ++ issues_of (schema_topP "topP" (get fields "topP"))
      ++ issues_of (schema_enableGrounding "enableGrounding"
                      (get fields "enableGrounding")) ->
  exists issues, geminiToolInputSchema (VObj fields) = inl issues /\ i ∈ issues.
Proof.
  unfold geminiToolInputSchema.
  destruct (schema_model _ _), (schema_prompt _ _), (schema_temperature _ _),
    (schema_maxOutputTokens _ _), (schema_topK _ _), (schema_topP _ _),
    (schema_enableGrounding _ _); intros H;
    first [ by apply elem_of_nil in H | by eexists ].
Qed.

Lemma failed_check_reported {A} path (checks : list (Check A)) (c : Check A) (a : A) :
  c ∈ checks -> test c a = false ->
  failed_check path (report c) ∈ issues_of (checked path checks a).
Proof.
  intros Hin Hfail.
  assert (Hrun : failed_check path (report c) ∈ run_checks path checks a).
  { unfold run_checks. apply list_elem_of_In, in_flat_map. exists c.
    split; [by apply list_elem_of_In|]. rewrite Hfail. by left. }
  unfold checked. by destruct (run_checks path checks a).
Qed.

(** X17. A rejection says what is wrong, for every field at once: an empty
    prompt, a temperature below 0 or above 1, and a token limit that is
    not an integer or exceeds 8192 are each reported under the field's
    name with the message the schema gives, whatever the other fields
    hold. *)
Theorem failing_fields_are_reported fields :
  let reported path message :=
    exists issues, geminiToolInputSchema (VObj fields) = inl issues
      /\ failed_check path message ∈ issues in
  (get fields "prompt" = VStr "" -> reported "prompt" "Prompt cannot be empty")
  /\ (forall q, get fields "temperature" = VNum q -> ~ (0 <= q)%Q ->
        reported "temperature" "Temperature must be at least 0")
  /\ (forall q, get fields "temperature" = VNum q -> ~ (q <= 1)%Q ->
        reported "temperature" "Temperature must be at most 1")
  /\ (forall q, get fields "maxOutputTokens" = VNum q -> isInteger q = false ->
        reported "maxOutputTokens" "Must be an integer")
  /\ (forall q, get fields "maxOutputTokens" = VNum q -> ~ (q <= 8192 # 1)%Q ->
        reported "maxOutputTokens" "Cannot exceed 8192 tokens").
Proof.
  simpl.
  assert (Hnot : forall a b : Q, ~ (a <= b)%Q -> Qle_bool a b = false).
  { intros a b H. destruct (Qle_bool a b) eqn:E; [|done].
    by apply Qle_bool_iff in E. }
  split; [|split; [|split; [|split]]].
  - intros Hv. apply issues_are_collected. rewrite Hv.
    apply elem_of_app. right. apply elem_of_app. left.
    apply (failed_check_reported "prompt" _ (str_min 1 "Prompt cannot be empty"));
      [apply elem_of_cons; by left|done].
  - intros q Hv Hq. apply issues_are_collected. rewrite Hv.
    do 2 (apply elem_of_app; right). apply elem_of_app. left.
    unfold schema_temperature, default_, optional, z_number.
    pose proof (failed_check_reported "temperature"
                  [ num_min 0 "Temperature must be at least 0";
                    num_max 1 "Temperature must be at most 1" ]
                  (num_min 0 "Temperature must be at least 0") q) as H.
    destruct (checked _ _ q); apply H;
      first [apply elem_of_cons; by left | by apply Hnot].
  - intros q Hv Hq. apply issues_are_collected. rewrite Hv.
    do 2 (apply elem_of_app; right). apply elem_of_app. left.
    unfold schema_temperature, default_, optional, z_number.
    pose proof (failed_check_reported "temperature"
                  [ num_min 0 "Temperature must be at least 0";
                    num_max 1 "Temperature must be at most 1" ]
                  (num_max 1 "Temperature must be at most 1") q) as H.
    destruct (checked _ _ q); apply H;
      first [apply elem_of_cons; right; apply elem_of_cons; by left | by apply Hnot].
  - intros q Hv Hq. apply issues_are_collected. rewrite Hv.
    do 3 (apply elem_of_app; right). apply elem_of_app. left.
    unfold schema_maxOutputTokens, default_, optional, z_number.
    pose proof (failed_check_reported "maxOutputTokens"
                  [ num_int "Must be an integer"; num_positive "Must be positive";
                    num_max (8192 # 1) "Cannot exceed 8192 tokens" ]
                  (num_int "Must be an integer") q) as H.
    destruct (checked _ _ q); apply H;
      first [apply elem_of_cons; by left | done].
  - intros q Hv Hq. apply issues_are_collected. rewrite Hv.
    do 3 (apply elem_of_app; right). apply elem_of_app. left.
    unfold schema_maxOutputTokens, default_, optional, z_number.
    pose proof (failed_check_reported "maxOutputTokens"
                  [ num_int "Must be an integer"; num_positive "Must be positive";
                    num_max (8192 # 1) "Cannot exceed 8192 tokens" ]
                  (num_max (8192 # 1) "Cannot exceed 8192 tokens") q) as H.
    destruct (checked _ _ q); apply H;
      first [ do 2 (apply elem_of_cons; right); apply elem_of_cons; by left
            | by apply Hnot ].
Qed.

End Schema.

Lemma arguments_accepted_iff_witness :
  exists input, GeminiTool.geminiToolInputSchema (VObj Scenario.only_prompt) = inr input.
Proof.
  apply (proj2 (arguments_accepted_iff Scenario.only_prompt)).
  split; [by left|]. split; [by exists "Hello"|].
  split; [by left|]. split; [by left|]. split; [by left|]. split; by left.
Defined.

Lemma grounding_unless_switched_off_witness :
  GeminiClient.ro_tools
    (GeminiRequest.requestOptions (GeminiTool.api_params Scenario.args))
  = Some ["googleSearchRetrieval"].
Proof.
  apply (proj2 (grounding_unless_switched_off Scenario.only_prompt Scenario.args
                  eq_refl)).
  discriminate.
Defined.

Lemma failing_fields_are_reported_witness :
  exists issues,
    GeminiTool.geminiToolInputSchema (VObj Scenario.hot) = inl issues
    /\ GeminiTool.failed_check "temperature" "Temperature must be at most 1" ∈ issues.
Proof.
  apply (proj1 (proj2 (proj2 (failing_fields_are_reported Scenario.hot))) (3 # 2));
    [reflexivity|].
  intros H. by apply H.
Defined.

(** ** Requests to the [/mcp] route *)

Section Requests.

Variable sdk : Sdk.

Implicit Types (req : Request) (p : Process) (x : Exchange) (t : Transport)
  (id : string).


Lemma mcp_catch_headersSent req (e : JsError) x :
  headersSent (res (mcp_catch req (Raised e) x).2) = true.
Proof. rewrite mcp_catch_res. by destruct (headersSent (res x)) eqn:E. Qed.

Lemma mcp_catch_transports req (e : Rejection) x :
  transports (proc (mcp_catch req e x).2) = transports (proc x).
Proof. destruct e as [e|r]; [by rewrite mcp_catch_proc|done]. Qed.

Lemma and_read_Own (sessionId : option string) (m : gmap string Transport) t :
  and_read sessionId m = Own t ->
  exists id, sessionId = Some id /\ id ≠ "" /\ m !! id = Some t.
Proof.
  unfold and_read. destruct sessionId as [id|]; [|done].
  destruct (truthy (Some id)) eqn:E; [|done]. intros H.
  exists id. split; [done|]. split; [by apply truthy_Some|by apply read_Own].
Qed.

(** The lookup finds an inherited property: the call of [handleRequest]
    on it throws. *)
Lemma serve_inherited req p :
  and_read (mcp_session_id req) (transports p) = Inherited ->
  serve sdk req p =
    mcp_catch req
      (Raised {| message := "transport.handleRequest is not a function";
                 stack := None |})
      {| res := new_Response; proc := p |}.
Proof.
  intros H. unfold serve, mcp, try_catch, mcp_try.
  unfold mbind, Async_bind, bind, get_exchange. simpl. by rewrite H.
Qed.

(** The three ways a request is taken: by the transport registered under
    its id, by the lookup of an inherited name, or, with no transport
    found, as an initialization or as an invalid request. *)
Lemma serve_cases req p :
  (exists id t, mcp_session_id req = Some id /\ id ≠ "" /\ transports p !! id = Some t)
  \/ and_read (mcp_session_id req) (transports p) = Inherited
  \/ (and_read (mcp_session_id req) (transports p) = Undefined
      /\ ((truthy (mcp_session_id req) = false /\ method req = "POST"
           /\ isInitializeRequest sdk (body req) = true)
          \/ negb (truthy (mcp_session_id req)) && String.eqb (method req) "POST"
               && isInitializeRequest sdk (body req) = false)).
Proof.
  destruct (and_read (mcp_session_id req) (transports p)) as [t| |] eqn:Hread.
  - left. apply and_read_Own in Hread as (id & ? & ? & ?). by exists id, t.
  - right. by left.
  - right. right. split; [done|].
    destruct (negb (truthy (mcp_session_id req)) && String.eqb (method req) "POST"
              && isInitializeRequest sdk (body req)) eqn:Hinit; [left|by right].
    apply andb_true_iff in Hinit as [Hinit Hbody].
    apply andb_true_iff in Hinit as [Htruthy Hmethod].
    apply negb_true_iff in Htruthy. by apply String.eqb_eq in Hmethod.
Qed.


(** X19. Every request the handler completes on is answered or handed
    over: when the handler has completed and the headers of the response
    are not sent, the request was given to a transport, and that
    transport took it without an error and left the response open
    itself. *)
Theorem unanswered_request_was_delegated req p :
  (serve sdk req p).1 = Normal tt ->
  headersSent (res (serve sdk req p).2) = false ->
  exists t, transport_handleRequest t req ∈ new_calls p (serve sdk req p).2
    /\ rejects (handleRequest t req new_Response) = None
    /\ res (serve sdk req p).2 = response (handleRequest t req new_Response).
Proof.
  destruct (serve_cases req p)
    as [(id & t & Hid & Hne & Hin)|[Hread|[Hread [(Ht & Hm & Hb)|Hinit]]]].
  - rewrite (serve_existing sdk req p id t Hid Hne Hin).
    destruct (rejects (handleRequest t req new_Response)) as [[e|r]|] eqn:Hrej.
    + by rewrite mcp_catch_headersSent.
    + by rewrite mcp_catch_nullish.
    + intros _ _. exists t. split; [|done]. unfold new_calls. simpl.
      rewrite calls_run_callbacks. simpl. rewrite drop_calls_app.
      by apply list_elem_of_singleton.
  - rewrite (serve_inherited req p Hread). by rewrite mcp_catch_headersSent.
  - rewrite (serve_initialization sdk req p Ht Hm Hb).
    set (t := new_transport sdk (length (calls p))).
    destruct (connect sdk t) as [[e|r]|].
    + by rewrite mcp_catch_headersSent.
    + by rewrite mcp_catch_nullish.
    + destruct (rejects (handleRequest t req new_Response)) as [[e|r]|] eqn:Hrej.
      * by rewrite mcp_catch_headersSent.
      * by rewrite mcp_catch_nullish.
      * intros _ _. exists t. split; [|done]. unfold new_calls. simpl.
        rewrite calls_run_callbacks. simpl. rewrite <- !app_assoc, drop_calls_app.
        apply elem_of_cons. right. apply elem_of_cons. right.
        by apply list_elem_of_singleton.
  - by rewrite (serve_invalid sdk req p Hread Hinit).
Qed.

(** X20. A session id that names a property the registry object inherits,
    such as [constructor], passes the route's test for an existing
    session although no session has that id: the request is answered
    with 500 and [{error: "Internal server error"}], no transport is
    created or called, the registry is unchanged, and the error that is
    logged is the failed call of [handleRequest]. *)
Theorem inherited_name_is_answered_500 req p id :
  mcp_session_id req = Some id -> inherited id = true -> transports p !! id = None ->
  res (serve sdk req p).2 = internal_server_error new_Response
  /\ new_calls p (serve sdk req p).2 = []
  /\ transports (proc (serve sdk req p).2) = transports p
  /\ logged (proc (serve sdk req p).2) =
       logged p ++ [ {| level := ERROR; text := "Error handling MCP request";
                        meta := [ ("error", VStr "transport.handleRequest is not a function");
                                  ("sessionId", VStr id) ] |} ].
Proof.
  intros Hid Hinh Hnone.
  assert (Hread : and_read (mcp_session_id req) (transports p) = Inherited).
  { rewrite Hid. unfold and_read.
    assert (truthy (Some id) = true) as ->.
    { apply truthy_Some. intros ->. discriminate Hinh. }
    unfold read. by rewrite Hnone, Hinh. }
  rewrite (serve_inherited req p Hread).
  split; [by rewrite mcp_catch_res|]. split.
  - unfold new_calls. rewrite mcp_catch_calls. simpl. by rewrite drop_all.
  - split; [by rewrite mcp_catch_transports|].
    rewrite mcp_catch_proc. simpl. by rewrite Hid.
Qed.

(** X21. When [mcpServer.connect] rejects with an error for a new
    session, the request is answered with 500, the transport that was
    constructed never receives the request, and the registry is
    unchanged. *)
Theorem failed_connect_registers_nothing req p (e : JsError) :
  truthy (mcp_session_id req) = false -> method req = "POST" ->
  isInitializeRequest sdk (body req) = true ->
  connect sdk (new_transport sdk (length (calls p))) = Some (Raised e) ->
  res (serve sdk req p).2 = internal_server_error new_Response
  /\ transports (proc (serve sdk req p).2) = transports p
  /\ forall t, transport_handleRequest t req ∉ new_calls p (serve sdk req p).2.
Proof.
  intros Htruthy Hmethod Hbody Hconnect.
  rewrite (serve_initialization sdk req p Htruthy Hmethod Hbody), Hconnect.
  split; [by rewrite mcp_catch_res|]. split; [by rewrite mcp_catch_transports|].
  intros t. unfold new_calls. rewrite mcp_catch_calls. simpl.
  rewrite <- app_assoc, drop_calls_app.
  intros H. apply elem_of_cons in H as [H|H]; [done|].
  by apply list_elem_of_singleton in H.
Qed.

Lemma run_callbacks_lookup_other id' cbs : forall t p,
  (forall id, sessionId t = Some id -> id ≠ id') ->
  (forall id, SessionInitialized id ∈ cbs -> id ≠ id') ->
  transports (run_callbacks t cbs p) !! id' = transports p !! id'.
Proof.
  induction cbs as [|[id2|] cbs IH]; intros t p Hown Hnew; [done| |].
  - simpl. rewrite IH.
    + rewrite transports_onsessioninitialized. apply lookup_insert_ne.
      apply Hnew, elem_of_cons. by left.
    + simpl. intros id [= <-]. apply Hnew, elem_of_cons. by left.
    + intros id Hin. apply Hnew, elem_of_cons. by right.
  - simpl. rewrite IH.
    + destruct (sessionId t) as [id|] eqn:Hid.
      * apply (onclose_lookup_other t id); [done|]. intros Heq.
        apply (Hown id eq_refl). by rewrite Heq.
      * unfold onclose. by rewrite Hid.
    + done.
    + intros id Hin. apply Hnew, elem_of_cons. by right.
Qed.

(** X22. A request of one session leaves the other sessions registered as
    they are: whatever the session's transport does with the request,
    be it closing or failing, the entry of every other id stays, unless
    the transport announces that very id. *)
Theorem other_sessions_are_untouched req p id t id' :
  mcp_session_id req = Some id -> id ≠ "" -> transports p !! id = Some t ->
  sessionId t = Some id -> id' ≠ id ->
  (forall id2, SessionInitialized id2 ∈ callbacks (handleRequest t req new_Response) ->
     id2 ≠ id') ->
  transports (proc (serve sdk req p).2) !! id' = transports p !! id'.
Proof.
  intros Hid Hne Hin Hown Hother Hnew.
  rewrite (serve_existing sdk req p id t Hid Hne Hin).
  destruct (rejects _); rewrite ?mcp_catch_transports; simpl;
    (rewrite run_callbacks_lookup_other; [done| |done]);
    intros i Hi; rewrite Hown in Hi; injection Hi as <-; by intros ->.
Qed.

(** X23. A session that the library announced and has not closed gets its
    requests: for every history of the callbacks under the library's
    contract, a request that carries a registered id is handed to the
    transport registered under it, which is the transport that carries
    that id, and to nothing else. *)
Theorem registered_session_receives_its_requests history req id t :
  library_contract history ->
  transports (replay history) !! id = Some t ->
  mcp_session_id req = Some id ->
  new_calls (replay history) (serve sdk req (replay history)).2
    = [transport_handleRequest t req]
  /\ sessionId t = Some id /\ is_uuid id = true.
Proof.
  intros Hc Hin Hid.
  pose proof (lookup_registered _ _ _ Hc Hin) as (before & after & Hh & _).
  assert (Hev : Initialized t id ∈ history).
  { rewrite Hh. apply elem_of_app. right. apply elem_of_cons. by left. }
  pose proof (announced_id_is_uuid _ Hc t id Hev) as Hu.
  split; [|split; [by apply (announced_id_is_assigned _ Hc)|done]].
  unfold new_calls.
  rewrite (serve_existing sdk req _ id t Hid (uuid_not_empty id Hu) Hin).
  destruct (rejects _); rewrite ?mcp_catch_calls; simpl;
    rewrite calls_run_callbacks; simpl; apply drop_calls_app.
Qed.

End Requests.

(** X24. Registering a session and closing it again is a round trip: under a
    fresh, non-empty id the two callbacks of a transport, run one after
    the other, leave the registry as it was. *)
Theorem register_then_close (t : Transport) (id : string) (p : Process) :
  id ≠ "" -> transports p !! id = None ->
  transports (run_callbacks t [SessionInitialized id; Closed] p) = transports p.
Proof.
  intros Hne Hfresh.
  change (run_callbacks t [SessionInitialized id; Closed] p)
    with (onclose (with_sessionId id t)
            (onsessioninitialized (with_sessionId id t) id p)).
  rewrite transports_onclose. cbn [sessionId with_sessionId].
  rewrite transports_onsessioninitialized.
  apply truthy_Some in Hne. rewrite Hne. by apply delete_insert_id.
Qed.

Lemma unanswered_request_was_delegated_witness :
  exists t,
    transport_handleRequest t (Scenario.list_tools "s1")
      ∈ new_calls Cases.one_listener
          (serve Scenario.sdk (Scenario.list_tools "s1") Cases.one_listener).2
    /\ rejects (handleRequest t (Scenario.list_tools "s1") new_Response) = None
    /\ res (serve Scenario.sdk (Scenario.list_tools "s1") Cases.one_listener).2
       = response (handleRequest t (Scenario.list_tools "s1") new_Response).
Proof.
  apply (unanswered_request_was_delegated Scenario.sdk (Scenario.list_tools "s1")
           Cases.one_listener); reflexivity.
Defined.


(** A transport that rejects with [null]: the handler rejects, and the
    request is left without an answer and without a log entry. *)
Lemma null_rejection_leaves_the_request_unanswered :
  serve Scenario.sdk (Scenario.list_tools "s1") Cases.one_silent_failure =
    (Exception (Raised {| message := "Cannot read properties of null (reading 'message')";
                          stack := None |}),
     {| res := new_Response;
        proc := called (transport_handleRequest (Cases.silent_failure 1 (Some "s1"))
                          (Scenario.list_tools "s1"))
                  Cases.one_silent_failure |}).
Proof. reflexivity. Qed.

Lemma inherited_name_is_answered_500_witness :
  res (serve Scenario.sdk Cases.constructor_request start).2
    = internal_server_error new_Response.
Proof.
  apply (proj1 (inherited_name_is_answered_500 Scenario.sdk Cases.constructor_request
                  start "constructor" eq_refl eq_refl eq_refl)).
Defined.

Lemma failed_connect_registers_nothing_witness :
  res (serve Cases.disconnected Scenario.initialize_without_id start).2
    = internal_server_error new_Response
  /\ transports (proc (serve Cases.disconnected Scenario.initialize_without_id start).2)
     = transports start.
Proof.
  pose proof (failed_connect_registers_nothing Cases.disconnected
                Scenario.initialize_without_id start Scenario.boom
                eq_refl eq_refl eq_refl eq_refl) as (H1 & H2 & _).
  by split.
Defined.

Lemma other_sessions_are_untouched_witness :
  transports (proc (serve Scenario.sdk (Scenario.list_tools "s2")
                      Scenario.two_sessions).2) !! "s1"
    = transports Scenario.two_sessions !! "s1".
Proof.
  apply (other_sessions_are_untouched Scenario.sdk (Scenario.list_tools "s2")
           Scenario.two_sessions "s2" (Scenario.healthy 2 (Some "s2")) "s1");
    [reflexivity|discriminate|reflexivity|reflexivity|discriminate|].
  intros id2 H. by apply elem_of_nil in H.
Defined.

Lemma registered_session_receives_its_requests_witness :
  new_calls (replay Scenario.history)
    (serve Scenario.sdk (Scenario.list_tools Scenario.uuid2)
       (replay Scenario.history)).2
  = [transport_handleRequest (Scenario.healthy 2 (Some Scenario.uuid2))
       (Scenario.list_tools Scenario.uuid2)].
Proof.
  apply (proj1 (registered_session_receives_its_requests Scenario.sdk
                  Scenario.history (Scenario.list_tools Scenario.uuid2)
                  Scenario.uuid2 (Scenario.healthy 2 (Some Scenario.uuid2))
                  scenario_history_contract eq_refl eq_refl)).
Defined.

Lemma register_then_close_witness :
  transports (run_callbacks (Scenario.fresh 0)
                [SessionInitialized Scenario.uuid1; Closed] start)
    = transports start.
Proof.
  apply (register_then_close (Scenario.fresh 0) Scenario.uuid1 start);
    [discriminate|reflexivity].
Defined.

(** ** The end of the process *)

Section Exit.

Variable sdk : Sdk.

Implicit Types (p q : Process) (t : Transport) (id : string).

Lemma close_transports_exited keys q :
  exited (close_transports sdk keys q).1 = exited q.
Proof.
  induction keys as [|id keys IH]; [done|]. simpl.
  destruct (transports q !! id); [|done]. simpl. apply call_close_exited.
Qed.

Lemma advance_exited n keys q : exited (advance sdk n keys q) = exited q.
Proof.
  unfold advance. pose proof (close_transports_exited keys q) as H.
  by destruct (close_transports sdk keys q).
Qed.

Lemma handleShutdown_exited p : exited (handleShutdown sdk p) = exited p.
Proof. by rewrite handleShutdown_advance, advance_exited. Qed.

Lemma turn_exited p a :
  exited p = None \/ exited p = Some 0%Z ->
  exited (turn sdk p a) = None \/ exited (turn sdk p a) = Some 0%Z.
Proof.
  intros Hp. unfold turn. destruct (exited p) eqn:E; [by rewrite E|].
  destruct a as [ev|i].
  - left. destruct ev; simpl; by rewrite ?handleShutdown_exited.
  - unfold resume.
    destruct (tasks p !! i) as [[id settles remaining|settles|]|];
      [|by right|by left; rewrite E..].
    left. rewrite advance_exited. by destruct settles.
Qed.

(** X25. The HTTP server never ends with a failure status: whatever events
    arrive and however the runs of the shutdown sequence interleave, also
    after an uncaught exception and when closing a transport or the
    server fails, the process is still running or has exited with 0. *)
Theorem exit_status_is_always_zero turns p :
  exited p = None ->
  exited (run sdk turns p) = None \/ exited (run sdk turns p) = Some 0%Z.
Proof.
  intros Hp.
  assert (H : forall q, exited q = None \/ exited q = Some 0%Z ->
            exited (run sdk turns q) = None \/ exited (run sdk turns q) = Some 0%Z).
  { induction turns as [|a turns IH]; intros q Hq; [done|].
    rewrite run_cons. by apply IH, turn_exited. }
  apply H. by left.
Qed.


Lemma enumerates_set_transports (m : gmap string Transport) p :
  enumerates (set_transports m p).
Proof. split; [apply NoDup_fst_map_to_list|apply elem_of_keys]. Qed.







End Exit.

Lemma exit_status_is_always_zero_witness :
  exited (run Scenario.sdk
            [Emit (uncaughtException Scenario.boom); Resume 0; Resume 0; Resume 0]
            Scenario.two_sessions) = None
  \/ exited (run Scenario.sdk
               [Emit (uncaughtException Scenario.boom); Resume 0; Resume 0; Resume 0]
               Scenario.two_sessions) = Some 0%Z.
Proof.
  apply (exit_status_is_always_zero Scenario.sdk
           [Emit (uncaughtException Scenario.boom); Resume 0; Resume 0; Resume 0]
           Scenario.two_sessions).
  reflexivity.
Defined.




(** The same two sessions opened in either order are closed in the order
    in which they were opened. *)
Lemma sessions_are_closed_in_opening_order :
  calls (shutdown_alone Scenario.sdk (replay Cases.later_first))
    = [ transport_close Scenario.uuid2 (Scenario.healthy 2 (Some Scenario.uuid2));
        transport_close Scenario.uuid1 (Scenario.healthy 1 (Some Scenario.uuid1));
        mcpServer_close; process_exit 0 ]
  /\ calls (shutdown_alone Scenario.sdk (replay Cases.earlier_first))
     = [ transport_close Scenario.uuid1 (Scenario.healthy 1 (Some Scenario.uuid1));
         transport_close Scenario.uuid2 (Scenario.healthy 2 (Some Scenario.uuid2));
         mcpServer_close; process_exit 0 ].
Proof. split; reflexivity. Qed.

